(** * FPD_Creator: the staged extraction pipeline of [FPD_Creator.py]

    A shallow embedding of the parsers, the prompt builders and the
    orchestrator of [src/FPD_Creator.py], and the properties its
    specification states about them.

    Python text is a sequence of Unicode code points; the embedding keeps
    that: a character is a code point, a [str] a list of them.  The
    collaborators of the program (the PDF reader, the chat model, the
    file system) are parameters of the run. *)

From Stdlib Require Import Strings.String Strings.Ascii.
From stdpp Require Import base option list gmap.

Local Open Scope N_scope.

(* ===================================================================== *)
(** * Python text *)
(* ===================================================================== *)

Definition char := N.
Definition str := list char.

(** String literals of the source are written as Rocq literals and decoded
    from UTF-8, so that a literal of the source that holds a character
    outside ASCII is the same sequence of code points here. *)
Fixpoint bytes_of (s : string) : list N :=
  match s with
  | EmptyString => []
  | String a s' => N_of_ascii a :: bytes_of s'
  end.

Definition cont (b : N) : N := N.land b 63.

Fixpoint utf8_decode (bs : list N) : str :=
  match bs with
  | [] => []
  | b0 :: r0 =>
    if b0 <? 128 then b0 :: utf8_decode r0
    else match r0 with
    | [] => [b0]
    | b1 :: r1 =>
      if b0 <? 224 then (N.land b0 31 * 64 + cont b1) :: utf8_decode r1
      else match r1 with
      | [] => [b0; b1]
      | b2 :: r2 =>
        if b0 <? 240
        then (N.land b0 15 * 4096 + cont b1 * 64 + cont b2) :: utf8_decode r2
        else match r2 with
        | [] => [b0; b1; b2]
        | b3 :: r3 =>
          (N.land b0 7 * 262144 + cont b1 * 4096 + cont b2 * 64 + cont b3)
            :: utf8_decode r3
        end
      end
    end
  end.

Definition u (s : string) : str := utf8_decode (bytes_of s).

Definition LF : char := 10.
Definition CR : char := 13.
Definition PIPE : char := 124.
Definition DOT : char := 46.
Definition UNDERSCORE : char := 95.
Definition HYPHEN : char := 45.
Definition SLASH : char := 47.

Definition between (lo hi c : N) : bool := (lo <=? c) && (c <=? hi).

(** [str.isspace] on one character, which is also [\s] of [re] on text
    patterns: the white-space characters of the Unicode database. *)
Definition isspace (c : char) : bool :=
  between 9 13 c || between 28 31 c || (c =? 32) || (c =? 133) || (c =? 160)
  || (c =? 5760) || between 8192 8202 c || (c =? 8232) || (c =? 8233)
  || (c =? 8239) || (c =? 8287) || (c =? 12288).

(** The line boundaries of [str.splitlines]. *)
Definition islinebreak (c : char) : bool :=
  between 10 13 c || between 28 30 c || (c =? 133) || (c =? 8232) || (c =? 8233).

(** The decimal digits ([\d]) and the alphanumeric characters (the letters
    and numbers of [\w]) outside ASCII are tables of the Unicode database
    of the Python runtime; they are parameters here. *)
Class UnicodeData := {
  unicode_decimal : char -> bool;
  unicode_alnum : char -> bool
}.

(** The database restricted to ASCII: no digit and no letter beyond it. *)
Definition ascii_only : UnicodeData :=
  {| unicode_decimal := fun _ => false; unicode_alnum := fun _ => false |}.

Definition isdecimal `{UnicodeData} (c : char) : bool :=
  if c <? 128 then between 48 57 c else unicode_decimal c.

Definition isalnum `{UnicodeData} (c : char) : bool :=
  if c <? 128 then between 48 57 c || between 65 90 c || between 97 122 c
  else unicode_alnum c.

(** [\w]: alphanumeric or the underscore. *)
Definition isword `{UnicodeData} (c : char) : bool :=
  isalnum c || (c =? UNDERSCORE).

(** [s.lstrip(chars)], [s.rstrip(chars)], [s.strip(chars)] for a set of
    characters given as a predicate: every leading (trailing) character of
    the set is removed, however many there are. *)
Fixpoint lstrip_of (P : char -> bool) (s : str) : str :=
  match s with
  | c :: s' => if P c then lstrip_of P s' else s
  | [] => []
  end.

Definition rstrip_of (P : char -> bool) (s : str) : str :=
  reverse (lstrip_of P (reverse s)).

Definition strip_of (P : char -> bool) (s : str) : str :=
  rstrip_of P (lstrip_of P s).

(** [s.strip()] *)
Definition strip (s : str) : str := strip_of isspace s.

(** [s.strip("|")] *)
Definition strip_pipes (s : str) : str := strip_of (N.eqb PIPE) s.

(** [s.startswith("|")] *)
Definition startswith_pipe (s : str) : bool :=
  match s with
  | c :: _ => c =? PIPE
  | [] => false
  end.

(** [s.split(sep)] for a separator of one character: one piece more than
    there are separators, empty pieces kept. *)
Fixpoint split_on (sep : char) (s : str) : list str :=
  match s with
  | [] => [[]]
  | c :: s' =>
    if c =? sep then [] :: split_on sep s'
    else match split_on sep s' with
         | piece :: pieces => (c :: piece) :: pieces
         | [] => [[c]]
         end
  end.

(** [s.splitlines()]: the text is cut at every line boundary, CR LF counting
    as one; the boundaries are not kept, and a boundary at the very end does
    not open a last, empty line. *)
Fixpoint splitlines (s : str) : list str :=
  match s with
  | [] => []
  | c :: s' =>
    if islinebreak c then
      [] :: match s' with
            | c' :: s'' =>
              if (c =? CR) && (c' =? LF) then splitlines s'' else splitlines s'
            | [] => []
            end
    else match splitlines s' with
         | line :: lines => (c :: line) :: lines
         | [] => [[c]]
         end
  end.

(** [sep.join(parts)] *)
Fixpoint join (sep : str) (parts : list str) : str :=
  match parts with
  | [] => []
  | [p] => p
  | p :: ps => p ++ sep ++ join sep ps
  end.

(* ===================================================================== *)
(** * The fragment of [re] the program uses *)
(* ===================================================================== *)

(** Both patterns of the program are sequences of character classes under a
    greedy quantifier, with at most one capturing group around an item.  The
    matcher below is the backtracking matcher of [re] on that fragment: an
    item first takes as many characters as it can and gives them back one
    by one while the rest of the pattern fails. *)
Module Re.

Inductive quant := Once | Opt | Star | Plus.

Record item := Item {
  i_class : char -> bool;
  i_quant : quant;
  i_group : bool
}.

Definition q_min (q : quant) : nat :=
  match q with Once | Plus => 1%nat | Opt | Star => 0%nat end.

Definition q_max (q : quant) (avail : nat) : nat :=
  match q with Once | Opt => Nat.min 1 avail | Star | Plus => avail end.

Fixpoint run_length (P : char -> bool) (s : str) : nat :=
  match s with
  | c :: s' => if P c then S (run_length P s') else 0%nat
  | [] => 0%nat
  end.

(** Try [k], [k-1], ... down to [lo] repetitions. *)
Fixpoint greedy {A} (try : nat -> option A) (lo k : nat) : option A :=
  if (k <? lo)%nat then None
  else match try k with
       | Some r => Some r
       | None => match k with
                 | O => None
                 | S k' => greedy try lo k'
                 end
       end.

(** [$] without MULTILINE: the end of the text, or just before a line
    feed that ends the text. *)
Definition at_end (s : str) : bool :=
  match s with
  | [] => true
  | [c] => c =? LF
  | _ => false
  end.

(** Matching at the start of [s] a pattern that ends in [$]; the result is
    the text of the group ([None] inside when no item is a group). *)
Fixpoint match_items (items : list item) (s : str) : option (option str) :=
  match items with
  | [] => if at_end s then Some None else None
  | i :: items' =>
    greedy
      (fun k =>
         match match_items items' (drop k s) with
         | Some g => Some (if i_group i then Some (take k s) else g)
         | None => None
         end)
      (q_min (i_quant i))
      (q_max (i_quant i) (run_length (i_class i) s))
  end.

(** What the matcher decides, read off the pattern: each item takes [k]
    characters of its class from the front, with [k] as its quantifier
    allows, and the text ends after the last item. *)
Fixpoint accepts (items : list item) (s : str) (g : option str) : Prop :=
  match items with
  | [] => at_end s = true /\ g = None
  | i :: items' =>
    exists (k : nat) (g' : option str),
      (q_min (i_quant i) <= k <= q_max (i_quant i) (run_length (i_class i) s))%nat
      /\ accepts items' (drop k s) g'
      /\ g = if i_group i then Some (take k s) else g'
  end.

(** [n] repetitions are within what the quantifier allows. *)
Definition within (q : quant) (n : nat) : Prop :=
  (q_min q <= n)%nat /\
  match q with Once | Opt => (n <= 1)%nat | Star | Plus => True end.

(** [re.sub(cls+, repl, s)]: from left to right, every maximal run of
    characters of the class is replaced by [repl].  [in_match] tells that
    the character before belongs to the match being consumed. *)
Fixpoint sub_scan (P : char -> bool) (repl : str) (in_match : bool)
    (s : str) : str :=
  match s with
  | [] => []
  | c :: s' =>
    if P c then (if in_match then [] else repl) ++ sub_scan P repl true s'
    else c :: sub_scan P repl false s'
  end.

Definition sub_runs (P : char -> bool) (repl : str) (s : str) : str :=
  sub_scan P repl false s.

End Re.

(* ===================================================================== *)
(** * Python dictionaries *)
(* ===================================================================== *)

(** A [dict] keeps its keys in the order of their first insertion, and an
    assignment to a key it already holds replaces the value in place: an
    association list without repeated keys, not a finite map. *)
Definition dict (V : Type) : Type := list (str * V).

Fixpoint dict_set {V} (k : str) (v : V) (d : dict V) : dict V :=
  match d with
  | [] => [(k, v)]
  | (k', v') :: d' =>
    if decide (k' = k) then (k', v) :: d' else (k', v') :: dict_set k v d'
  end.

Fixpoint dict_get {V} (k : str) (d : dict V) : option V :=
  match d with
  | [] => None
  | (k', v') :: d' => if decide (k' = k) then Some v' else dict_get k d'
  end.

Definition dict_keys {V} (d : dict V) : list str := d.*1.

(** [dict(pairs)] *)
Definition dict_of {V} (pairs : list (str * V)) : dict V :=
  fold_left (fun d kv => dict_set kv.1 kv.2 d) pairs [].

(** [zip(a, b)] stops at the end of the shorter list. *)
Fixpoint zip {A B} (a : list A) (b : list B) : list (A * B) :=
  match a, b with
  | x :: a', y :: b' => (x, y) :: zip a' b'
  | _, _ => []
  end.

Definition record : Type := dict str.

(* ===================================================================== *)
(** * The run: effects and collaborators *)
(* ===================================================================== *)

Inductive exn :=
| ExtractionError              (* the PDF reader raised *)
| RemoteCallError              (* the chat completion call raised *)
| SinkError (path : str)       (* [os.makedirs] or [open] raised *)
| ValueError (extras : list str).
                               (* [csv.DictWriter]: fields not in fieldnames *)

Record chat_message := Message { role : str; content : str }.
Definition conversation := list chat_message.

(** What the program prints, one constructor per [print] of [main]. *)
Inductive printed :=
| MsgReading (pdf_path : str)
| MsgNoText
| MsgIdentifying
| MsgNoParticipants
| MsgRawResponse (resp : str)
| MsgFound (participants : list str)
| MsgGenerating (p : str)
| MsgCouldNotParse (p md : str)
| MsgRows (n : nat) (out : str)
| MsgGeneratingFlows
| MsgFlows (n : nat) (out : str)
| MsgCouldNotParseFlows (mf : str)
| MsgAllDone.

(** A CSV file as the writer fills it: the header line, then one line per
    row, each a list of cells (the quoting of cells is the writer's). *)
Definition csv_file : Type := list (list str).

(** What the run does to the world outside, in order. *)
Inductive event :=
| Print (m : printed)
| ModelCall (messages : conversation)
| Store (path : str) (f : csv_file).   (* a file opened for writing is closed *)

Record world := World {
  events : list event;
  files : gmap str csv_file
}.

(** The collaborators.  [gpt n messages] is what [call_gpt] gets from the
    [n]-th call of the run before it trims it: the text of the reply,
    [resp.choices[0].message.content], or the exception raised on the way,
    by the client or, for a reply that holds no text, by [.strip()] itself.
    [os_ok path] tells whether the directory of [path] can be made and the
    file opened for writing. *)
Record env := Env {
  pdf_pages : str -> exn + list (option str);
  gpt : nat -> conversation -> exn + str;
  os_ok : str -> bool
}.

(** A computation reads and changes the world, and returns or raises. *)
Definition M (A : Type) : Type := world -> world * (exn + A).

Definition ret {A} (a : A) : M A := fun w => (w, inr a).
Definition raise {A} (e : exn) : M A := fun w => (w, inl e).
Definition bind {A B} (m : M A) (k : A -> M B) : M B :=
  fun w => match m w with
           | (w', inr a) => k a w'
           | (w', inl e) => (w', inl e)
           end.

Declare Scope py_scope.
Delimit Scope py_scope with py.
Notation "'let*' x ':=' m 'in' k" := (bind m (fun x => k))
  (at level 10, x binder, m at level 200, k at level 200) : py_scope.
Notation "m '>>' k" := (bind m (fun _ => k))
  (at level 90, right associativity) : py_scope.
Local Open Scope py_scope.

Definition emit (e : event) : M unit :=
  fun w => (World (events w ++ [e]) (files w), inr tt).

Definition print (m : printed) : M unit := emit (Print m).

Definition of_result {A} (r : exn + A) : M A :=
  match r with inl e => raise e | inr a => ret a end.

Definition model_calls (w : world) : list conversation :=
  omap (fun e => match e with ModelCall c => Some c | _ => None end) (events w).

Definition stores (w : world) : list (str * csv_file) :=
  omap (fun e => match e with Store p f => Some (p, f) | _ => None end)
       (events w).

Definition prints (w : world) : list printed :=
  omap (fun e => match e with Print m => Some m | _ => None end) (events w).

(* ===================================================================== *)
(** * The program *)
(* ===================================================================== *)

Definition nl : str := [LF].

Section Program.
Context `{UnicodeData}.

(** ** Utilities *)

(** [parse_numbered_list]: the pattern [^\s*\d+\.?\s+(.+)$] *)
Definition numbered_item : list Re.item :=
  [ Re.Item isspace Re.Star false;
    Re.Item isdecimal Re.Plus false;
    Re.Item (N.eqb DOT) Re.Opt false;
    Re.Item isspace Re.Plus false;
    Re.Item (fun c => negb (c =? LF)) Re.Plus true ].

Definition parse_numbered_list (text : str) : list str :=
  fold_left
    (fun items line =>
       match Re.match_items numbered_item line with
       | Some (Some label) => items ++ [strip label]
       | _ => items
       end)
    (splitlines text) [].

(** [[c.strip() for c in row.strip("|").split("|")]] *)
Definition row_cells (row : str) : list str :=
  strip <$> split_on PIPE (strip_pipes row).

(** [[l.strip() for l in md.splitlines() if l.strip().startswith("|")]] *)
Definition table_lines (md : str) : list str :=
  strip <$> filter (fun l => startswith_pipe (strip l) = true) (splitlines md).

Definition parse_markdown_table (md : str) : list record :=
  let lines := table_lines md in
  if (length lines <? 2)%nat then []
  else
    let headers := row_cells (default [] (head lines)) in
    fold_left
      (fun rows row =>
         let cells := row_cells row in
         if negb (length cells =? length headers)%nat then rows
         else rows ++ [dict_of (zip headers cells)])
      (drop 2 lines) [].

(** ** Prompt templates *)

Definition get_participants_prompt (sop_text : str) : conversation :=
  let system := u "You are a process modelling expert." in
  let user :=
    u "Identify the main participants that execute the processes mentioned the Standard Operating Procedure given below."
    ++ nl
    ++ u "Return a simple, single-level numbered list (e.g. “1. Alice”, “2. Bob”), with no extra text using only alphanumeric characters and spaces (no special characters):"
    ++ nl ++ nl
    ++ u "```" ++ nl
    ++ sop_text ++ nl
    ++ u "```" in
  [ Message (u "system") system; Message (u "user") user ].

Definition get_bpmn_prompt (participant sop_text : str) : conversation :=
  [ Message (u "system") (u "You are an expert in BPMN 2.0 process modelling.");
    Message (u "user")
      (u "As the participant **" ++ participant
       ++ u "** trying to understand what you need to do within this standard operating procedure and how you collaborate with the other participants based on the Standard Operating Procedure given below. Create a single Formalised Process Data table using the BPMN 2.0 Standard relating to all processes that you participate in, ensuring that all steps are represented."
       ++ u "The tasks must fit within a single swim lane with a single start event."
       ++ u "The result must be given in Markdown format, as a table with exactly these columns(nothing additional):"
       ++ nl ++ nl
       ++ u "| Object Type         | Object Name                           | Predecessor                           | Successor                                                               | Input Data                                    | Output Data                                  | Additional Information                                                |"
       ++ nl
       ++ u "| ------------------- | ------------------------------------- | ------------------------------------- | ----------------------------------------------------------------------- | --------------------------------------------- | -------------------------------------------- | --------------------------------------------------------------------- |"
       ++ nl
       ++ u "• Start Event         | Start Condition                       | N/A                                   | Name of next Object                                                     | N/A                                           | N/A                                          |                                                                       |"
       ++ nl
       ++ u "• Receive Task        | Task X (where a message is recieved)  |                                       | Name of next Object                                                     |                                               | Name of Data Object 1; Name of Data Object 2 |                                                                       |"
       ++ nl
       ++ u "• Gateway (Exclusive) | Condition for splitting sequence flow |                                       | Name of next Object (Condition 1) OR Name of next Object (Condition 2)  |                                               |                                              |                                                                       |"
       ++ nl
       ++ u "• Send Task           | Task Y (where a message is sent)      | Only Object Name of Exclusive Gateway |                                                                         | Name of Data Object 1                         | Name of Data Object 3                        |                                                                       |"
       ++ nl
       ++ u "• Task                | Task Z                                | Only Object Name of Exclusive Gateway |                                                                         | Name of Data Object 1                         | Name of Data Object 4                        | Additional information if any (special conditions, constraints, etc.) |"
       ++ nl
       ++ u "• Gateway (Parallel)  | Parallel Gateway name                 |                                       | Name of Successor 1 AND Name of Successor 2.                            |                                               |                                              |                                                                       |"
       ++ nl
       ++ u "• Task                | Task A                                | Only Object Name of Parallel Gateway  |                                                                         |                                               |                                              |                                                                       |"
       ++ nl
       ++ u "• Task                | Task B                                | Only Object name of Parallel Gateway  |                                                                         | Name of Data Object 2; Name of Data Object 3  |                                              |                                                                       |"
       ++ nl
       ++ u "• Intermediate Event  | Event Name                            | Task B                                | Task C                                                                  | N/A                                           | N/A                                          |                                                                       |"
       ++ nl
       ++ u "• Task                | Task C                                | Event Name                            | End Condition                                                           | Name of Data Object 2                         |                                              |                                                                       |"
       ++ nl
       ++ u "• End Event           | End Condition                         |                                       | N/A                                                                     | N/A                                           | N/A                                          |                                                                       |"
       ++ nl ++ nl
       ++ u "Use **only** these column headers and rows that reflect your own processes – no extra section headings, labels or comments.  "
       ++ nl ++ nl
       ++ u "```" ++ nl
       ++ sop_text ++ nl
       ++ u "```") ].

Definition system_content : str :=
  u "You are a process modeling expert trying to understand interactions between participants. Given below are markdown tables which specify the send and receive tasks as well as the associated data for each participant."
  ++ u "Analyze all the participant’s sending and receiving tasks to identify all the message flows between them."
  ++ u "Return a single Markdown table with exactly these columns:"
  ++ nl ++ nl
  ++ u "| Message Sent             | Sending Task            | Sending Participant          | Receiving Task          | Receiving Participant         |"
  ++ nl
  ++ u "| ------------------------ | ----------------------- | ---------------------------- | ----------------------- | ----------------------------- |"
  ++ nl
  ++ u "| Name of Message Sent     | Name of Send Task       | Name of Sending Participant  | Name of Receive Task    | Name of Receiving Participant |"
  ++ nl ++ nl
  ++ u "Only list Send → Receive flows that logically belong together.".

(** [x or y] on texts: the empty text is false. *)
Definition or_else (x y : str) : str :=
  match x with [] => y | _ => x end.

(** [r.get("Object Type") in ("Send Task", "Receive Task")] *)
Definition is_activity (r : record) : bool :=
  match dict_get (u "Object Type") r with
  | Some t => bool_decide (t = u "Send Task") || bool_decide (t = u "Receive Task")
  | None => false
  end.

(** The table the loop of [get_message_flows_prompt] builds for one
    participant from the send and receive tasks of its table. *)
Definition mini_table_of (md_table : str) : str :=
  let rows := parse_markdown_table md_table in
  let activities := filter (fun r => is_activity r = true) rows in
  fold_left
    (fun mini_table act =>
       let task_type := strip (default [] (dict_get (u "Object Type") act)) in
       let task_name := strip (default [] (dict_get (u "Object Name") act)) in
       let output_data :=
         or_else (strip (default [] (dict_get (u "Output Data") act))) (u "—") in
       let input_data :=
         or_else (strip (default [] (dict_get (u "Input Data") act))) (u "—") in
       mini_table ++ u "| " ++ task_type ++ u " | " ++ task_name ++ u " | "
         ++ output_data ++ u " | " ++ input_data ++ u " |" ++ nl)
    activities
    (u "| Task Type | Task Name | Output Data | Input Data |" ++ nl
     ++ u "| --------- | --------- | ----------- | ---------- |" ++ nl).

(** The body of the loop over [bpmn_tables.items()]: [mini_table] is built
    and then not used, the section appended holds [md_table] itself. *)
Definition section_step (user_sections : list str) (item : str * str)
    : list str :=
  let participant := item.1 in
  let md_table := item.2 in
  let mini_table := mini_table_of md_table in
  user_sections
    ++ [u "Tasks for " ++ participant ++ u ":" ++ nl ++ nl ++ md_table ++ nl].

Definition get_message_flows_prompt (bpmn_tables : dict str) : conversation :=
  let user_sections := fold_left section_step bpmn_tables [] in
  let user_content := join (nl ++ nl) user_sections in
  [ Message (u "system") system_content; Message (u "user") user_content ].

(** ** Utilities that act on the world *)

Variable E : env.

(** The texts of the pages, those that are [None] or empty left out, joined
    by line feeds. *)
Definition full_text (pages : list (option str)) : str :=
  join nl
    (fold_left
       (fun full_text txt =>
          match txt with
          | Some (c :: t) => full_text ++ [c :: t]
          | _ => full_text
          end)
       pages []).

Definition extract_text_from_pdf (pdf_path : str) : M str :=
  let* pages := of_result (pdf_pages E pdf_path) in
  ret (full_text pages).

(** One call of the model; the reply is stripped. *)
Definition call_gpt (messages : conversation) : M str :=
  fun w =>
    let w' := World (events w ++ [ModelCall messages]) (files w) in
    match gpt E (length (model_calls w)) messages with
    | inl e => (w', inl e)
    | inr reply => (w', inr (strip reply))
    end.

(** [DictWriter._dict_to_list] with the default [extrasaction="raise"] and
    [restval=""]. *)
Definition dict_to_list (fieldnames : list str) (rowdict : record)
    : exn + list str :=
  match filter (fun k => k ∉ fieldnames) (dict_keys rowdict) with
  | [] => inr ((fun k => default [] (dict_get k rowdict)) <$> fieldnames)
  | wrong_fields => inl (ValueError wrong_fields)
  end.

(** The rows go to the file one by one; a row that raises leaves the lines
    written so far. *)
Fixpoint writerows (fieldnames : list str) (rows : list record) (f : csv_file)
    : csv_file * option exn :=
  match rows with
  | [] => (f, None)
  | r :: rows' =>
    match dict_to_list fieldnames r with
    | inl e => (f, Some e)
    | inr line => writerows fieldnames rows' (f ++ [line])
    end
  end.

Definition write_csv (rows : list record) (headers : list str) (out_path : str)
    : M unit :=
  fun w =>
    if os_ok E out_path then
      let (f, r) := writerows headers rows [headers] in
      let w' := World (events w ++ [Store out_path f])
                      (<[out_path := f]> (files w)) in
      match r with
      | Some e => (w', inl e)
      | None => (w', inr tt)
      end
    else (w, inl (SinkError out_path)).

(** [os.path.join(a, b)] of [posixpath] *)
Definition path_join (a b : str) : str :=
  if bool_decide (head b = Some SLASH) then b
  else match last a with
       | None => b
       | Some d => if d =? SLASH then a ++ b else a ++ [SLASH] ++ b
       end.

(** ** Main process *)

Definition headers : list str :=
  [ u "Object Type"; u "Object Name"; u "Predecessor"; u "Successor";
    u "Input Data"; u "Output Data"; u "Additional Information" ].

Definition mf_headers : list str :=
  [ u "Message Sent"; u "Sending Task"; u "Sending Participant";
    u "Receiving Task"; u "Receiving Participant" ].

(** [re.sub(r"[^\w\-]+", "_", p)] *)
Definition safe_name (p : str) : str :=
  Re.sub_runs (fun c => negb (isword c || (c =? HYPHEN))) (u "_") p.

Definition bpmn_path (output_dir p : str) : str :=
  path_join output_dir (safe_name p ++ u "_bpmn.csv").

(** The loop over the participants; [bpmn_tables] is the dictionary it
    fills. *)
Fixpoint for_participants (sop_text output_dir : str) (participants : list str)
    (bpmn_tables : dict str) : M (dict str) :=
  match participants with
  | [] => ret bpmn_tables
  | p :: rest =>
    print (MsgGenerating p) >>
    let* md := call_gpt (get_bpmn_prompt p sop_text) in
    let rows := parse_markdown_table md in
    match rows with
    | [] =>
      print (MsgCouldNotParse p md) >>
      for_participants sop_text output_dir rest bpmn_tables
    | _ =>
      let out := bpmn_path output_dir p in
      write_csv rows headers out >>
      print (MsgRows (length rows) out) >>
      for_participants sop_text output_dir rest (dict_set p md bpmn_tables)
    end
  end.

Definition message_flows (output_dir : str) (bpmn_tables : dict str) : M unit :=
  match bpmn_tables with
  | [] => ret tt
  | _ =>
    print MsgGeneratingFlows >>
    let* mf := call_gpt (get_message_flows_prompt bpmn_tables) in
    let mf_rows := parse_markdown_table mf in
    match mf_rows with
    | [] => print (MsgCouldNotParseFlows mf)
    | _ =>
      let out_msg := path_join output_dir (u "message_flows.csv") in
      write_csv mf_rows mf_headers out_msg >>
      print (MsgFlows (length mf_rows) out_msg)
    end
  end.

Definition main (pdf_path output_dir : str) : M unit :=
  print (MsgReading pdf_path) >>
  let* sop_text := extract_text_from_pdf pdf_path in
  match strip sop_text with
  | [] => print MsgNoText
  | _ =>
    print MsgIdentifying >>
    let* resp := call_gpt (get_participants_prompt sop_text) in
    let participants := parse_numbered_list resp in
    match participants with
    | [] => print MsgNoParticipants >> print (MsgRawResponse resp)
    | _ =>
      print (MsgFound participants) >>
      let* bpmn_tables := for_participants sop_text output_dir participants [] in
      message_flows output_dir bpmn_tables >>
      print MsgAllDone
    end
  end.

(** A run starts with nothing printed and nothing called, on the files
    that are there. *)
Definition start (fs : gmap str csv_file) : world := World [] fs.

End Program.

(* ===================================================================== *)
(** * The statements of the specification *)
(* ===================================================================== *)

Definition all (P : char -> bool) (s : str) : Prop :=
  Forall (fun c => P c = true) s.

(** ** Table rows *)

(** A row with one pipe taken from its start and one from its end, when
    they are there: the specification's reading of the split. *)
Definition drop_leading_pipe (s : str) : str :=
  match s with
  | c :: s' => if c =? PIPE then s' else s
  | [] => []
  end.

Definition strip_one_pipe (s : str) : str :=
  reverse (drop_leading_pipe (reverse (drop_leading_pipe s))).

Definition spec_row_cells (row : str) : list str :=
  strip <$> split_on PIPE (strip_one_pipe row).

(** Rendering a table, a line [| c1 | c2 | ... |] per row. *)
Definition render_row (cells : list str) : str :=
  u "| " ++ join (u " | ") cells ++ u " |".

Definition separator_row (n : nat) : str :=
  render_row (replicate n (u "---")).

Definition render_table (H : list str) (rows : list (list str)) : str :=
  join nl (render_row H :: separator_row (length H) :: (render_row <$> rows)).

(** A cell as the round trip takes it: no pipe, nothing to trim. *)
Definition trimmed_cell (c : str) : Prop := (PIPE ∉ c) ∧ strip c = c.

(** A cell that moreover stays on its line. *)
Definition no_linebreak (s : str) : Prop :=
  Forall (fun c => islinebreak c = false) s.

Definition plain_cell (c : str) : Prop := trimmed_cell c ∧ no_linebreak c.

(** The record [r] gives, under each name of the header, the cell of the
    row in that column, and has no other key. *)
Definition reads_back (H : list str) (row : list str) (r : record) : Prop :=
  (forall k, k ∈ dict_keys r <-> k ∈ H) /\
  (forall j h c, H !! j = Some h -> row !! j = Some c -> dict_get h r = Some c).

(** The section of the message-flow prompt for one participant. *)
Definition labelled_section (participant md_table : str) : str :=
  u "Tasks for " ++ participant ++ u ":" ++ nl ++ nl ++ md_table ++ nl.

(** ** Numbered lines *)

Section Numbered.
Context `{UnicodeData}.

(** [<index><optional dot><whitespace><label>] *)
Definition spec_numbered (line label : str) : Prop :=
  exists idx dot sp,
    line = idx ++ dot ++ sp ++ label /\
    idx <> [] /\ all isdecimal idx /\
    (dot = [] \/ dot = [DOT]) /\
    sp <> [] /\ all isspace sp /\
    label <> [].

(** The same after leading white space. *)
Definition numbered (line label : str) : Prop :=
  exists ws rest,
    line = ws ++ rest /\ all isspace ws /\ spec_numbered rest label.

(** The text of a line after its leading white space, its digits and one
    dot if there is one. *)
Definition after_index (line : str) : str :=
  match lstrip_of isdecimal (lstrip_of isspace line) with
  | c :: s => if c =? DOT then s else c :: s
  | [] => []
  end.

(** [out] lists, in order, the trimmed labels of the lines that match, and
    nothing for the lines that do not. *)
Inductive labels_of (matching : str -> str -> Prop)
    : list str -> list str -> Prop :=
| labels_nil : labels_of matching [] []
| labels_skip line lines out :
    (forall label, ~ matching line label) ->
    labels_of matching lines out ->
    labels_of matching (line :: lines) out
| labels_item line label lines out :
    matching line label ->
    labels_of matching lines out ->
    labels_of matching (line :: lines) (strip label :: out).

(** ** Safe names *)

(** What [safe_name] replaces: neither a word character nor a hyphen. *)
Definition unsafe (c : char) : bool := negb (isword c || (c =? HYPHEN)).

(** The specification's class: underscores are replaced too. *)
Definition spec_unsafe (c : char) : bool := negb (isalnum c || (c =? HYPHEN)).

Definition spec_safe_name (p : str) : str :=
  Re.sub_runs spec_unsafe (u "_") p.

(** [t] is [s] with every maximal run of characters of [bad] replaced by one
    underscore. *)
Inductive collapsed (bad : char -> bool) : str -> str -> Prop :=
| collapsed_nil : collapsed bad [] []
| collapsed_keep c s t :
    bad c = false -> collapsed bad s t -> collapsed bad (c :: s) (c :: t)
| collapsed_run run s t :
    run <> [] -> all bad run ->
    (forall c, head s = Some c -> bad c = false) ->
    collapsed bad s t ->
    collapsed bad (run ++ s) (UNDERSCORE :: t).

End Numbered.

(** ** The participants' loop *)

Section Replies.
Context `{UnicodeData} (E : env).

(** The lines [write_csv] stores for [rows] under the seven headers. *)
Definition csv_of (rows : list record) : csv_file :=
  (writerows headers rows [headers]).1.

(** What the model answers to the participants [ps], in order, when the
    first of these calls is the [n]-th call of the run. *)
Fixpoint answers (sop_text : str) (n : nat) (ps : list str)
    : list (str * (exn + str)) :=
  match ps with
  | [] => []
  | p :: ps' =>
    (p, gpt E n (get_bpmn_prompt p sop_text)) :: answers sop_text (S n) ps'
  end.

(** The turn of the loop for this participant and reply runs to its end:
    the model has answered, and either the reply parses to no record, or the
    file system takes the file and no record has a key outside the seven
    headers. *)
Definition turn_ok (output_dir : str) (pr : str * (exn + str)) : Prop :=
  match pr.2 with
  | inl _ => False
  | inr reply =>
    parse_markdown_table (strip reply) = [] \/
    (os_ok E (bpmn_path output_dir pr.1) = true /\
     Forall (fun r => dict_keys r ⊆ headers) (parse_markdown_table (strip reply)))
  end.

(** The line [DictWriter] writes for a record under the field names. *)
Definition csv_line (fieldnames : list str) (r : record) : list str :=
  (fun k => default [] (dict_get k r)) <$> fieldnames.

(** The world when the loop over the participants starts. *)
Definition after_stage1 (pdf_path sop_text : str) (participants : list str)
    (fs : gmap str csv_file) : world :=
  World [ Print (MsgReading pdf_path); Print MsgIdentifying;
          ModelCall (get_participants_prompt sop_text);
          Print (MsgFound participants) ]
        fs.

(** The participants whose reply parses to at least one record, each with
    its stripped reply. *)
Definition successes (replies : list (str * (exn + str))) : list (str * str) :=
  omap (fun pr =>
          match pr.2 with
          | inr reply =>
            match parse_markdown_table (strip reply) with
            | [] => None
            | _ => Some (pr.1, strip reply)
            end
          | inl _ => None
          end)
       replies.

End Replies.

(* ===================================================================== *)
(** * Sample runs *)
(* ===================================================================== *)

(** A model that answers its calls from a script, and raises once the
    script is over. *)
Definition scripted (replies : list (exn + str)) (n : nat) (_ : conversation)
    : exn + str :=
  default (inl RemoteCallError) (replies !! n).

(** A one-page document, a scripted model, a file system that takes every
    write. *)
Definition sample_pages : list (option str) :=
  [Some (u "Alice sends the order to Bob, Carol files it.")].

Definition sample_env (replies : list (exn + str)) : env :=
  Env (fun _ => inr sample_pages) (scripted replies) (fun _ => true).

Definition blank_env : env :=
  Env (fun _ => inr [Some (u "  "); None; Some []; Some [LF; 9]])
      (scripted [])
      (fun _ => true).

Definition three_names : str :=
  u "1. Alice" ++ nl ++ u "2 Bob" ++ nl ++ u "NotANumber" ++ nl ++ u "3. Carol".

Definition task_table (name : str) : str :=
  u "| Object Type | Object Name |" ++ nl
  ++ u "| --- | --- |" ++ nl
  ++ u "| Task | " ++ name ++ u " |".

Definition notes_table : str :=
  u "| Object Type | Notes |" ++ nl
  ++ u "| --- | --- |" ++ nl
  ++ u "| Task | urgent |".

Definition flows_table : str :=
  u "| Message Sent | Sending Task |" ++ nl
  ++ u "| --- | --- |" ++ nl
  ++ u "| Order | Send order |".

(** Three participants; the answer to the second one is [second]. *)
Definition stage2_env (second : exn + str) : env :=
  sample_env [ inr three_names; inr (task_table (u "Review")); second;
               inr (task_table (u "File")); inr flows_table ].


(* ===================================================================== *)
(** * Further properties: vocabulary *)
(* ===================================================================== *)

(** ** What a run may touch *)

(** [w'] has the events of [w] and maybe more after them. *)
Definition grows (w w' : world) : Prop :=
  exists es, events w' = events w ++ es.

(** No file outside [allowed] differs between [w] and [w']. *)
Definition keeps (allowed : str -> Prop) (w w' : world) : Prop :=
  forall q, ~ allowed q -> files w' !! q = files w !! q.

Definition confined (allowed : str -> Prop) {A} (m : M A) : Prop :=
  forall w, grows w (m w).1 /\ keeps allowed w (m w).1.

(** The paths [main] writes to under [output_dir]. *)
Definition artifact_path `{UnicodeData} (output_dir q : str) : Prop :=
  q = path_join output_dir (u "message_flows.csv") \/
  exists p, q = bpmn_path output_dir p.

Section FlowsOk.
Context `{UnicodeData} (E : env).

(** The message-flow stage on [tables] runs to its end when its call is the
    [n]-th of the run: nothing to do, or the model answers and either the
    reply parses to no record, or the file system takes the file and no
    record has a key outside the five headers. *)
Definition flows_ok (output_dir : str) (n : nat) (tables : dict str) : Prop :=
  match tables with
  | [] => True
  | _ =>
    match gpt E n (get_message_flows_prompt tables) with
    | inl _ => False
    | inr reply =>
      parse_markdown_table (strip reply) = [] \/
      (os_ok E (path_join output_dir (u "message_flows.csv")) = true /\
       Forall (fun r => dict_keys r ⊆ mf_headers)
              (parse_markdown_table (strip reply)))
    end
  end.

End FlowsOk.

(** A document that cannot be read. *)
Definition unreadable_env : env :=
  Env (fun _ => inl ExtractionError) (scripted []) (fun _ => true).

(* ===================================================================== *)
(** * Proofs *)
(* ===================================================================== *)

#[local] Arguments N.eqb : simpl never.
#[local] Arguments N.leb : simpl never.
#[local] Arguments N.ltb : simpl never.
#[local] Arguments u : simpl never.

(** ** Stripping a set of characters *)

Lemma lstrip_of_replicate P c n s :
  P c = true -> lstrip_of P (replicate n c ++ s) = lstrip_of P s.
Proof. intros Hc. induction n as [|n IH]; simpl; [done|]. by rewrite Hc. Qed.

Lemma lstrip_of_stop P s :
  (forall c, head s = Some c -> P c = false) -> lstrip_of P s = s.
Proof.
  destruct s as [|c s]; simpl; [done|]. intros Hs. by rewrite (Hs c).
Qed.

Lemma not_pipe o c : o <> Some PIPE -> o = Some c -> (PIPE =? c) = false.
Proof. intros Ho ->. apply N.eqb_neq. congruence. Qed.

Lemma strip_pipes_core a b core :
  head core <> Some PIPE -> last core <> Some PIPE ->
  strip_pipes (replicate a PIPE ++ core ++ replicate b PIPE) = core.
Proof.
  intros Hh Hl. unfold strip_pipes, strip_of, rstrip_of.
  rewrite lstrip_of_replicate by apply N.eqb_refl.
  destruct core as [|c core].
  - simpl. replace (replicate b PIPE) with (replicate b PIPE ++ []) by apply app_nil_r.
    rewrite lstrip_of_replicate by apply N.eqb_refl. done.
  - rewrite (lstrip_of_stop _ ((c :: core) ++ _)).
    2:{ intros c'. by apply not_pipe. }
    rewrite reverse_app, reverse_replicate, lstrip_of_replicate by apply N.eqb_refl.
    rewrite lstrip_of_stop; [apply reverse_involutive|].
    intros c'. rewrite head_reverse. by apply not_pipe.
Qed.

Lemma drop_leading_pipe_stop s :
  head s <> Some PIPE -> drop_leading_pipe s = s.
Proof.
  destruct s as [|c s]; simpl; [done|]. intros Hc.
  destruct (N.eqb_spec c PIPE) as [->|]; done.
Qed.

Lemma strip_one_pipe_core a b core :
  (a <= 1)%nat -> (b <= 1)%nat ->
  head core <> Some PIPE -> last core <> Some PIPE ->
  strip_one_pipe (replicate a PIPE ++ core ++ replicate b PIPE) = core.
Proof.
  intros Ha Hb Hh Hl. unfold strip_one_pipe.
  assert (Hrev : forall b', (b' <= 1)%nat ->
            reverse (drop_leading_pipe (reverse (core ++ replicate b' PIPE))) = core).
  { intros b' Hb'. rewrite reverse_app, reverse_replicate.
    destruct b' as [|[|?]]; [| |lia]; simpl.
    - rewrite drop_leading_pipe_stop; [apply reverse_involutive|by rewrite head_reverse].
    - apply reverse_involutive. }
  destruct a as [|[|?]]; [| |lia]; simpl.
  - destruct core as [|c core].
    + destruct b as [|[|?]]; [by vm_compute|by vm_compute|].
      exfalso. clear -Hb. lia.
    + rewrite (drop_leading_pipe_stop ((c :: core) ++ _)) by exact Hh. by apply Hrev.
  - by apply Hrev.
Qed.

(** C3 (as amended). A row is split after every pipe at its start and every
    pipe at its end has been removed, however many there are, and each cell
    is trimmed: the cells are those of the core between the two runs of
    pipes, and consecutive pipes at either end yield no cell.  It agrees
    with the split after one pipe taken from each end when the row has at
    most one pipe before and at most one after its core. *)
Theorem row_cells_strips_every_pipe (a b : nat) (core : str) :
  head core <> Some PIPE -> last core <> Some PIPE ->
  row_cells (replicate a PIPE ++ core ++ replicate b PIPE)
    = strip <$> split_on PIPE core
  /\ ((a <= 1)%nat /\ (b <= 1)%nat ->
      spec_row_cells (replicate a PIPE ++ core ++ replicate b PIPE)
        = row_cells (replicate a PIPE ++ core ++ replicate b PIPE)).
Proof.
  intros Hh Hl. unfold row_cells, spec_row_cells.
  rewrite strip_pipes_core by done. split; [done|].
  intros [Ha Hb]. by rewrite strip_one_pipe_core.
Qed.

Lemma row_cells_counterexample :
  row_cells (u "|a||") = [u "a"] /\
  spec_row_cells (u "|a||") = [u "a"; []] /\
  row_cells (u "|a||") <> spec_row_cells (u "|a||").
Proof. vm_compute. repeat split; congruence. Qed.

Lemma row_cells_strips_every_pipe_witness :
  head (u "a|b") <> Some PIPE /\ last (u "a|b") <> Some PIPE /\
  row_cells (u "|||a|b||") = [u "a"; u "b"].
Proof.
  assert (Hh : head (u "a|b") <> Some PIPE) by (vm_compute; congruence).
  assert (Hl : last (u "a|b") <> Some PIPE) by (vm_compute; congruence).
  split; [exact Hh|]. split; [exact Hl|].
  exact (proj1 (row_cells_strips_every_pipe 3 2 (u "a|b") Hh Hl)).
Defined.

(** ** Runs of characters *)

Lemma lstrip_of_drop P s : lstrip_of P s = drop (Re.run_length P s) s.
Proof.
  induction s as [|c s IH]; simpl; [done|]. destruct (P c); [exact IH|done].
Qed.

Lemma run_length_all P s : all P (take (Re.run_length P s) s).
Proof.
  induction s as [|c s IH]; simpl; [constructor|].
  destruct (P c) eqn:Hc; simpl; [by constructor|constructor].
Qed.

Lemma run_split P s : s = take (Re.run_length P s) s ++ lstrip_of P s.
Proof. by rewrite lstrip_of_drop, take_drop. Qed.

Lemma lstrip_of_head P s c : head (lstrip_of P s) = Some c -> P c = false.
Proof.
  induction s as [|c' s IH]; simpl; [done|].
  destruct (P c') eqn:Hc'; [exact IH|]. by intros [= <-].
Qed.

Lemma lstrip_of_length P s : (length (lstrip_of P s) <= length s)%nat.
Proof. rewrite lstrip_of_drop, length_drop. lia. Qed.

Lemma lstrip_of_all P run s : all P run -> lstrip_of P (run ++ s) = lstrip_of P s.
Proof.
  induction 1 as [|c run Hc _ IH]; simpl; [done|]. by rewrite Hc.
Qed.

(** ** The table parser *)

Lemma table_rows_loop (hs : list str) (body : list str) (rows : list record) :
  fold_left
    (fun rows row =>
       let cells := row_cells row in
       if negb (length cells =? length hs)%nat then rows
       else rows ++ [dict_of (zip hs cells)])
    body rows
  = rows ++ ((fun row => dict_of (zip hs (row_cells row))) <$>
             filter (fun row => length (row_cells row) = length hs) body).
Proof.
  revert rows. induction body as [|row body IH]; intros rows; simpl.
  - by rewrite app_nil_r.
  - rewrite IH, filter_cons. clear IH.
    destruct (Nat.eqb_spec (length (row_cells row)) (length hs)) as [Heq|Hne];
      simpl.
    + rewrite decide_True by done. by rewrite <- app_assoc.
    + by rewrite decide_False.
Qed.

Lemma parse_markdown_table_rows md h sep body :
  table_lines md = h :: sep :: body ->
  parse_markdown_table md
    = (fun row => dict_of (zip (row_cells h) (row_cells row))) <$>
      filter (fun row => length (row_cells row) = length (row_cells h)) body.
Proof.
  unfold parse_markdown_table. intros ->. simpl. by rewrite table_rows_loop.
Qed.

(** C4. With fewer than two qualifying lines the parser returns no record;
    with a header [h], a separator and body rows, it returns the records of
    exactly the body rows that have as many cells as the header, in their
    order: a row with another number of cells is dropped and the rows around
    it are read as if it were not there. *)
Theorem parse_markdown_table_rejects (md : str) :
  ((length (table_lines md) < 2)%nat -> parse_markdown_table md = []) /\
  (forall h sep body,
     table_lines md = h :: sep :: body ->
     parse_markdown_table md
       = (fun row => dict_of (zip (row_cells h) (row_cells row))) <$>
         filter (fun row => length (row_cells row) = length (row_cells h)) body).
Proof.
  unfold parse_markdown_table. split.
  - intros Hlt. apply Nat.ltb_lt in Hlt. by rewrite Hlt.
  - intros h sep body. apply parse_markdown_table_rows.
Qed.

Lemma parse_markdown_table_rejects_witness :
  (length (table_lines (u "| a | b |")) < 2)%nat /\
  parse_markdown_table (u "| a | b |") = [] /\
  table_lines (u "|a|b|" ++ nl ++ u "|-|-|" ++ nl ++ u "|1|2|" ++ nl
               ++ u "|3|" ++ nl ++ u "|4|5|")
    = [u "|a|b|"; u "|-|-|"; u "|1|2|"; u "|3|"; u "|4|5|"] /\
  parse_markdown_table (u "|a|b|" ++ nl ++ u "|-|-|" ++ nl ++ u "|1|2|" ++ nl
                        ++ u "|3|" ++ nl ++ u "|4|5|")
    = [ [(u "a", u "1"); (u "b", u "2")]; [(u "a", u "4"); (u "b", u "5")] ].
Proof.
  assert (H1 : (length (table_lines (u "| a | b |")) < 2)%nat)
    by (vm_compute; lia).
  assert (H2 : table_lines (u "|a|b|" ++ nl ++ u "|-|-|" ++ nl ++ u "|1|2|" ++ nl
               ++ u "|3|" ++ nl ++ u "|4|5|")
    = [u "|a|b|"; u "|-|-|"; u "|1|2|"; u "|3|"; u "|4|5|"])
    by (vm_compute; reflexivity).
  split; [exact H1|]. split.
  - exact (proj1 (parse_markdown_table_rejects _) H1).
  - split; [exact H2|].
    rewrite (proj2 (parse_markdown_table_rejects _) _ _ _ H2).
    vm_compute. reflexivity.
Defined.

(** ** The message-flow prompt *)

Lemma sections_loop (bpmn_tables : dict str) (user_sections : list str) :
  fold_left section_step bpmn_tables user_sections
  = user_sections ++ ((fun item => labelled_section item.1 item.2) <$> bpmn_tables).
Proof.
  revert user_sections.
  induction bpmn_tables as [|item items IH]; intros user_sections; simpl.
  - by rewrite app_nil_r.
  - rewrite IH. unfold section_step at 1. by rewrite <- app_assoc.
Qed.

Lemma message_flows_user_content (bpmn_tables : dict str) :
  get_message_flows_prompt bpmn_tables
    = [ Message (u "system") system_content;
        Message (u "user")
          (join (nl ++ nl)
             ((fun item => labelled_section item.1 item.2) <$> bpmn_tables)) ].
Proof. unfold get_message_flows_prompt. by rewrite sections_loop. Qed.

Lemma join_elem (sep part : str) (parts : list str) :
  part ∈ parts -> exists before after, join sep parts = before ++ part ++ after.
Proof.
  induction parts as [|p ps IH]; [by intros ?%elem_of_nil|].
  intros [->|Hin]%elem_of_cons.
  - exists [], (match ps with [] => [] | _ => sep ++ join sep ps end).
    destruct ps; simpl; [by rewrite app_nil_r|done].
  - destruct (IH Hin) as (before & after & Heq).
    exists (p ++ sep ++ before), after.
    destruct ps as [|p' ps']; [by apply elem_of_nil in Hin|].
    change (join sep (p :: p' :: ps')) with (p ++ sep ++ join sep (p' :: ps')).
    rewrite Heq. by rewrite <- !app_assoc.
Qed.

(** C6. The conversation built for the message flows is the fixed system
    message and one user message: the sections of the participants, in the
    order of the dictionary, joined by a blank line, each section holding
    the participant's label and the whole text of its table as it was
    given.  The builder is a function of the dictionary alone: it takes no
    world and no model. *)
Theorem get_message_flows_prompt_sections (bpmn_tables : dict str) :
  get_message_flows_prompt bpmn_tables
    = [ Message (u "system") system_content;
        Message (u "user")
          (join (nl ++ nl)
             ((fun item => labelled_section item.1 item.2) <$> bpmn_tables)) ]
  /\ forall participant md_table,
       (participant, md_table) ∈ bpmn_tables ->
       exists before after,
         get_message_flows_prompt bpmn_tables
           = [ Message (u "system") system_content;
               Message (u "user")
                 (before ++ u "Tasks for " ++ participant ++ u ":" ++ nl ++ nl
                  ++ md_table ++ nl ++ after) ].
Proof.
  assert (Heq : get_message_flows_prompt bpmn_tables
    = [ Message (u "system") system_content;
        Message (u "user")
          (join (nl ++ nl)
             ((fun item => labelled_section item.1 item.2) <$> bpmn_tables)) ]).
  { apply message_flows_user_content. }
  split; [exact Heq|].
  intros participant md_table Hin. rewrite Heq.
  destruct (join_elem (nl ++ nl) (labelled_section participant md_table)
              ((fun item => labelled_section item.1 item.2) <$> bpmn_tables))
    as (before & after & Hj).
  { apply list_elem_of_fmap. by exists (participant, md_table). }
  exists before, after. rewrite Hj. unfold labelled_section.
  by rewrite <- !app_assoc.
Qed.

Lemma get_message_flows_prompt_sections_witness :
  (u "Bob", u "| x |") ∈ [ (u "Alice", u "| a |"); (u "Bob", u "| x |") ] /\
  exists before after,
    get_message_flows_prompt [ (u "Alice", u "| a |"); (u "Bob", u "| x |") ]
      = [ Message (u "system") system_content;
          Message (u "user")
            (before ++ u "Tasks for " ++ u "Bob" ++ u ":" ++ nl ++ nl
             ++ u "| x |" ++ nl ++ after) ].
Proof.
  assert (Hin : (u "Bob", u "| x |")
                  ∈ [ (u "Alice", u "| a |"); (u "Bob", u "| x |") ])
    by (apply list_elem_of_further, list_elem_of_here).
  split; [exact Hin|].
  exact (proj2 (get_message_flows_prompt_sections _) _ _ Hin).
Defined.

(** ** The run *)

Section Run.
Context `{UnicodeData} (E : env).

(** C8. When the text extracted from the document is empty or only white
    space, the run prints that no text was extracted and returns: the model
    is never called and no file is stored. *)
Theorem main_empty_document (pdf_path output_dir : str)
    (fs : gmap str csv_file) (pages : list (option str)) :
  pdf_pages E pdf_path = inr pages ->
  strip (full_text pages) = [] ->
  main E pdf_path output_dir (start fs)
    = (World [Print (MsgReading pdf_path); Print MsgNoText] fs, inr tt)
  /\ model_calls (main E pdf_path output_dir (start fs)).1 = []
  /\ stores (main E pdf_path output_dir (start fs)).1 = []
  /\ files (main E pdf_path output_dir (start fs)).1 = fs.
Proof.
  intros Hpages Hblank.
  assert (Hrun : main E pdf_path output_dir (start fs)
    = (World [Print (MsgReading pdf_path); Print MsgNoText] fs, inr tt)).
  { unfold main, extract_text_from_pdf, bind, print, emit, start, of_result.
    rewrite Hpages. unfold ret. cbn [events files app]. by rewrite Hblank. }
  rewrite Hrun. done.
Qed.

End Run.

Lemma main_empty_document_witness :
  pdf_pages blank_env (u "sop.pdf")
    = inr [Some (u "  "); None; Some []; Some [LF; 9]] /\
  strip (full_text [Some (u "  "); None; Some []; Some [LF; 9]]) = [] /\
  @main ascii_only blank_env (u "sop.pdf") (u "out") (start ∅)
    = (World [Print (MsgReading (u "sop.pdf")); Print MsgNoText] ∅, inr tt).
Proof.
  assert (Hblank : strip (full_text [Some (u "  "); None; Some []; Some [LF; 9]]) = [])
    by (vm_compute; reflexivity).
  split; [reflexivity|]. split; [exact Hblank|].
  exact (proj1 (@main_empty_document ascii_only blank_env (u "sop.pdf") (u "out") ∅
                  [Some (u "  "); None; Some []; Some [LF; 9]] eq_refl Hblank)).
Defined.

(** ** Sanitised names *)

Lemma sub_scan_in_match P repl s :
  Re.sub_scan P repl true s = Re.sub_scan P repl false (lstrip_of P s).
Proof.
  induction s as [|c s IH]; simpl; [done|].
  destruct (P c) eqn:Hc; simpl; [exact IH|by rewrite Hc].
Qed.

Lemma sub_runs_collapsed P s : collapsed P s (Re.sub_runs P [UNDERSCORE] s).
Proof.
  unfold Re.sub_runs.
  remember (length s) as n eqn:Hn. revert s Hn.
  induction n as [n IH] using lt_wf_ind. intros s ->.
  destruct s as [|c s]; simpl; [constructor|].
  destruct (P c) eqn:Hc.
  - rewrite sub_scan_in_match. simpl.
    rewrite (run_split P s) at 1.
    apply (collapsed_run P (c :: take (Re.run_length P s) s)).
    + done.
    + constructor; [done|apply run_length_all].
    + intros c'. apply lstrip_of_head.
    + eapply IH; [|done]. pose proof (lstrip_of_length P s). simpl. lia.
  - constructor; [done|]. eapply IH; [|done]. simpl. lia.
Qed.

Lemma collapsed_sub_runs P s t :
  collapsed P s t -> t = Re.sub_runs P [UNDERSCORE] s.
Proof.
  unfold Re.sub_runs. induction 1 as [|c s t Hc _ IH|run s t Hne Hrun Hs _ IH].
  - done.
  - simpl. by rewrite Hc, IH.
  - destruct Hrun as [|c run Hc Hrun]; [done|]. simpl. rewrite Hc.
    rewrite sub_scan_in_match, (lstrip_of_all P run s Hrun).
    rewrite (lstrip_of_stop P s Hs). simpl. by rewrite IH.
Qed.

Section SafeName.
Context `{UnicodeData}.

Lemma unsafe_slash : unsafe SLASH = true.
Proof. reflexivity. Qed.

Lemma safe_name_head p c :
  head (safe_name p ++ u "_bpmn.csv") = Some c -> c <> SLASH.
Proof.
  unfold safe_name, Re.sub_runs. fold unsafe.
  change (u "_") with [UNDERSCORE]. destruct p as [|c' p]; simpl.
  - by intros [= <-].
  - destruct (unsafe c') eqn:Hc'; simpl; intros [= <-]; [done|].
    intros ->. by rewrite unsafe_slash in Hc'.
Qed.

Lemma bpmn_path_join output_dir p d :
  last output_dir = Some d -> d <> SLASH ->
  bpmn_path output_dir p
    = output_dir ++ u "/" ++ safe_name p ++ u "_bpmn.csv".
Proof.
  intros Hd Hne. unfold bpmn_path, path_join.
  rewrite bool_decide_eq_false_2.
  2:{ intros Hh. by apply safe_name_head in Hh. }
  rewrite Hd. by apply N.eqb_neq in Hne as ->.
Qed.

End SafeName.

(** ** One turn of the participants' loop *)

Section Loop.
Context `{UnicodeData} (E : env).

Lemma for_participants_cons sop out p rest t w :
  for_participants E sop out (p :: rest) t w =
    let prompt := get_bpmn_prompt p sop in
    let path := bpmn_path out p in
    match gpt E (length (model_calls w)) prompt with
    | inl e =>
      (World (events w ++ [Print (MsgGenerating p); ModelCall prompt]) (files w),
       inl e)
    | inr reply =>
      match parse_markdown_table (strip reply) with
      | [] =>
        for_participants E sop out rest t
          (World (events w ++ [Print (MsgGenerating p); ModelCall prompt;
                               Print (MsgCouldNotParse p (strip reply))])
                 (files w))
      | r :: rows =>
        if os_ok E path then
          match writerows headers (r :: rows) [headers] with
          | (f, Some e) =>
            (World (events w ++ [Print (MsgGenerating p); ModelCall prompt;
                                 Store path f])
                   (<[path := f]> (files w)),
             inl e)
          | (f, None) =>
            for_participants E sop out rest (dict_set p (strip reply) t)
              (World (events w ++ [Print (MsgGenerating p); ModelCall prompt;
                                   Store path f;
                                   Print (MsgRows (length (r :: rows)) path)])
                     (<[path := f]> (files w)))
          end
        else
          (World (events w ++ [Print (MsgGenerating p); ModelCall prompt])
                 (files w),
           inl (SinkError path))
      end
    end.
Proof.
  cbn zeta. cbn [for_participants].
  unfold bind at 1. unfold print at 1. unfold emit at 1.
  unfold bind at 1. unfold call_gpt at 1. cbn [events files].
  replace (length (model_calls (World (events w ++ [Print (MsgGenerating p)]) (files w))))
    with (length (model_calls w)).
  2:{ unfold model_calls. cbn [events]. rewrite omap_app. simpl.
      by rewrite app_nil_r. }
  rewrite <- !app_assoc. cbn [app].
  destruct (gpt E (length (model_calls w)) (get_bpmn_prompt p sop))
    as [e|reply]; [done|].
  destruct (parse_markdown_table (strip reply)) as [|r rows].
  - unfold bind at 1. unfold print at 1. unfold emit at 1. cbn [events files].
    by rewrite <- !app_assoc.
  - unfold bind at 1. unfold write_csv at 1. cbn [events files].
    destruct (os_ok E (bpmn_path out p)); [|done].
    destruct (writerows headers (r :: rows) [headers]) as [f [e|]].
    + by rewrite <- !app_assoc.
    + unfold bind at 1. unfold print at 1. unfold emit at 1. cbn [events files].
      by rewrite <- !app_assoc.
Qed.

End Loop.

Section ArtifactPath.
Context `{UnicodeData} (E : env).

(** C7 (as amended). For a participant whose reply parses to at least one
    record, and whose file the file system accepts, the turn of the loop
    stores the records at [os.path.join(output_dir, safe + "_bpmn.csv")],
    which is [output_dir/safe_bpmn.csv] for a directory name that does not
    end in a slash.  [safe] is the label with every maximal run of
    characters that are neither alphanumeric, nor an underscore, nor a
    hyphen replaced by one underscore; an underscore of the label is a word
    character and stays as it is. *)
Theorem bpmn_artifact_path (sop_text output_dir p : str) (bpmn_tables : dict str)
    (w : world) (reply : str) :
  gpt E (length (model_calls w)) (get_bpmn_prompt p sop_text) = inr reply ->
  parse_markdown_table (strip reply) <> [] ->
  os_ok E (bpmn_path output_dir p) = true ->
  stores (for_participants E sop_text output_dir [p] bpmn_tables w).1
    = stores w ++ [(path_join output_dir (safe_name p ++ u "_bpmn.csv"),
                    csv_of (parse_markdown_table (strip reply)))]
  /\ (forall d, last output_dir = Some d -> d <> SLASH ->
        path_join output_dir (safe_name p ++ u "_bpmn.csv")
          = output_dir ++ u "/" ++ safe_name p ++ u "_bpmn.csv")
  /\ collapsed unsafe p (safe_name p)
  /\ (forall s, collapsed unsafe p s -> s = safe_name p)
  /\ (forall c, unsafe c
        = negb (isalnum c) && negb (c =? UNDERSCORE) && negb (c =? HYPHEN)).
Proof.
  intros Hreply Hrows Hos. repeat split.
  - rewrite for_participants_cons. cbn zeta. rewrite Hreply.
    destruct (parse_markdown_table (strip reply)) as [|r rows] eqn:Hparse;
      [done|].
    rewrite Hos. unfold csv_of.
    destruct (writerows headers (r :: rows) [headers]) as [f [e|]];
      cbn [for_participants ret fst]; unfold stores; cbn [events];
      rewrite omap_app; reflexivity.
  - intros d Hd Hne. by apply bpmn_path_join with d.
  - apply sub_runs_collapsed.
  - apply collapsed_sub_runs.
  - intros c. unfold unsafe, isword.
    by rewrite !negb_orb.
Qed.

End ArtifactPath.

Lemma bpmn_artifact_path_witness :
  parse_markdown_table (strip (task_table (u "Review"))) <> [] /\
  stores (@for_participants ascii_only
            (stage2_env (inl RemoteCallError))
            (u "sop") (u "out") [u "Dr. Ann_Lee (QA)"] [] (World [ModelCall []] ∅)).1
    = [(u "out/Dr_Ann_Lee_QA__bpmn.csv",
        [headers; [u "Task"; u "Review"; []; []; []; []; []]])].
Proof.
  assert (Hrows : parse_markdown_table (strip (task_table (u "Review"))) <> [])
    by (vm_compute; congruence).
  split; [exact Hrows|].
  pose proof (@bpmn_artifact_path ascii_only
    (stage2_env (inl RemoteCallError))
    (u "sop") (u "out") (u "Dr. Ann_Lee (QA)") [] (World [ModelCall []] ∅)
    (task_table (u "Review")) eq_refl Hrows eq_refl) as [Hstores _].
  rewrite Hstores. vm_compute. reflexivity.
Defined.

Lemma spec_safe_name_counterexample :
  @safe_name ascii_only (u "a__b") = u "a__b" /\
  @spec_safe_name ascii_only (u "a__b") = u "a_b" /\
  (stores (@for_participants ascii_only
             (stage2_env (inl RemoteCallError))
             (u "sop") (u "out") [u "a__b"] [] (World [ModelCall []] ∅)).1).*1
    = [u "out/a__b_bpmn.csv"] /\
  @bpmn_path ascii_only (u "out") (u "a__b")
    <> path_join (u "out") (@spec_safe_name ascii_only (u "a__b") ++ u "_bpmn.csv").
Proof. vm_compute. repeat split; congruence. Qed.

(** ** Trimming, splitting, lines *)

Lemma strip_of_fixed P s :
  (forall c, head s = Some c -> P c = false) ->
  (forall c, last s = Some c -> P c = false) ->
  strip_of P s = s.
Proof.
  intros Hh Hl. unfold strip_of, rstrip_of. rewrite (lstrip_of_stop P s Hh).
  rewrite lstrip_of_stop; [apply reverse_involutive|].
  intros c. rewrite head_reverse. apply Hl.
Qed.

Lemma rstrip_of_length P s : (length (rstrip_of P s) <= length s)%nat.
Proof.
  unfold rstrip_of. rewrite length_reverse.
  pose proof (lstrip_of_length P (reverse s)) as Hle.
  by rewrite length_reverse in Hle.
Qed.

Lemma lstrip_of_same_length P s :
  length (lstrip_of P s) = length s -> lstrip_of P s = s.
Proof.
  destruct s as [|c s]; simpl; [done|]. destruct (P c); [|done].
  pose proof (lstrip_of_length P s). lia.
Qed.

Lemma strip_of_fixed_inv P s :
  strip_of P s = s ->
  (forall c, head s = Some c -> P c = false) /\
  (forall c, last s = Some c -> P c = false).
Proof.
  intros Hs.
  assert (Hl : lstrip_of P s = s).
  { apply lstrip_of_same_length. apply Nat.le_antisymm; [apply lstrip_of_length|].
    rewrite <- Hs at 1. apply rstrip_of_length. }
  unfold strip_of in Hs. rewrite Hl in Hs. unfold rstrip_of in Hs.
  split.
  - intros c Hc. apply (lstrip_of_head P s). by rewrite Hl.
  - intros c Hc. apply (lstrip_of_head P (reverse s)).
    rewrite <- (reverse_involutive s) in Hs at 2.
    apply (inj reverse) in Hs. by rewrite Hs, head_reverse.
Qed.

Lemma strip_padded c :
  strip c = c -> strip (32 :: c ++ [32]) = c.
Proof.
  intros Hc. apply strip_of_fixed_inv in Hc as [Hh Hl].
  unfold strip, strip_of, rstrip_of. cbn [lstrip_of].
  change (isspace 32) with true. cbn match.
  destruct c as [|x c]; [reflexivity|].
  rewrite (lstrip_of_stop isspace ((x :: c) ++ [32])) by exact Hh.
  rewrite reverse_app. change (reverse [32]) with [32 : char]. cbn [app lstrip_of].
  change (isspace 32) with true. cbn match.
  rewrite lstrip_of_stop; [apply reverse_involutive|].
  intros c'. rewrite head_reverse. apply Hl.
Qed.

Lemma split_on_none sep s : sep ∉ s -> split_on sep s = [s].
Proof.
  induction s as [|c s IH]; intros Hs; simpl; [done|].
  apply not_elem_of_cons in Hs as [Hc Hs].
  apply N.eqb_neq in Hc. rewrite N.eqb_sym in Hc. rewrite Hc.
  by rewrite IH.
Qed.

Lemma split_on_app sep a b :
  sep ∉ a -> split_on sep (a ++ sep :: b) = a :: split_on sep b.
Proof.
  induction a as [|c a IH]; intros Ha; simpl.
  - by rewrite N.eqb_refl.
  - apply not_elem_of_cons in Ha as [Hc Ha].
    apply N.eqb_neq in Hc. rewrite N.eqb_sym in Hc. rewrite Hc.
    by rewrite IH.
Qed.

Lemma splitlines_single l : l <> [] -> no_linebreak l -> splitlines l = [l].
Proof.
  intros Hne Hl. induction Hl as [|c l Hc Hl IH]; [done|].
  simpl. rewrite Hc. destruct l as [|c' l']; [done|]. by rewrite IH.
Qed.

Lemma splitlines_line l rest :
  no_linebreak l -> splitlines (l ++ LF :: rest) = l :: splitlines rest.
Proof.
  induction 1 as [|c l Hc Hl IH].
  - simpl. change (islinebreak LF) with true. cbn match.
    change (LF =? CR) with false. by destruct rest.
  - simpl. by rewrite Hc, IH.
Qed.

Lemma splitlines_join lines :
  Forall (fun l => l <> [] /\ no_linebreak l) lines ->
  splitlines (join nl lines) = lines.
Proof.
  induction 1 as [|l lines [Hne Hl] Hlines IH]; [done|].
  destruct lines as [|l' lines'].
  - by apply splitlines_single.
  - change (join nl (l :: l' :: lines')) with (l ++ LF :: join nl (l' :: lines')).
    by rewrite splitlines_line, IH.
Qed.

(** ** Rendered rows *)

Lemma render_row_eq cells :
  render_row cells
    = replicate 1 PIPE ++ (32 :: join (u " | ") cells ++ [32]) ++ replicate 1 PIPE.
Proof.
  unfold render_row. change (u "| ") with [PIPE; 32]. change (u " |") with [32; PIPE].
  simpl. by rewrite <- app_assoc.
Qed.

Lemma split_padded cells :
  cells <> [] -> Forall (fun c => PIPE ∉ c) cells ->
  split_on PIPE (32 :: join (u " | ") cells ++ [32])
    = (fun c => 32 :: c ++ [32]) <$> cells.
Proof.
  intros Hne Hcells. induction Hcells as [|c cells Hc Hcells IH]; [done|].
  assert (Hpad : PIPE ∉ 32 :: c ++ [32]).
  { rewrite not_elem_of_cons, not_elem_of_app, not_elem_of_cons. 
    repeat split; [done|done|done|apply not_elem_of_nil]. }
  destruct cells as [|c' cells'].
  - cbn [join]. by rewrite split_on_none.
  - change (join (u " | ") (c :: c' :: cells'))
      with (c ++ [32; PIPE; 32] ++ join (u " | ") (c' :: cells')).
    replace (32 :: (c ++ [32; PIPE; 32] ++ join (u " | ") (c' :: cells')) ++ [32])
      with ((32 :: c ++ [32]) ++ PIPE :: (32 :: join (u " | ") (c' :: cells') ++ [32])).
    2:{ simpl. f_equal. rewrite <- !app_assoc. done. }
    rewrite split_on_app by done. rewrite IH by done. done.
Qed.

Lemma row_cells_render_row cells :
  cells <> [] -> Forall trimmed_cell cells ->
  row_cells (render_row cells) = cells.
Proof.
  intros Hne Hcells. unfold row_cells. rewrite render_row_eq.
  rewrite strip_pipes_core.
  - rewrite split_padded; [|done|by eapply Forall_impl; [exact Hcells|intros c []]].
    rewrite <- list_fmap_compose.
    clear Hne. induction Hcells as [|c cells [_ Hc] _ IH]; [done|].
    cbn [fmap list_fmap compose]. cbn [fmap] in IH.
    rewrite strip_padded by done. by f_equal.
  - done.
  - rewrite last_cons, last_snoc. done.
Qed.

Lemma render_row_line cells :
  Forall plain_cell cells ->
  render_row cells <> [] /\ no_linebreak (render_row cells) /\
  strip (render_row cells) = render_row cells /\
  startswith_pipe (render_row cells) = true.
Proof.
  intros Hcells. rewrite render_row_eq. repeat split.
  - done.
  - cbn [replicate app]. constructor; [done|]. constructor; [done|].
    rewrite <- app_assoc. apply Forall_app. split; [|by repeat constructor].
    induction Hcells as [|c cells [_ Hc] Hcells IH]; [constructor|].
    destruct cells as [|c' cells']; [done|].
    change (join (u " | ") (c :: c' :: cells'))
      with (c ++ [32; PIPE; 32] ++ join (u " | ") (c' :: cells')).
    apply Forall_app. split; [done|].
    apply Forall_app. split; [by repeat constructor|done].
  - apply strip_of_fixed.
    + by intros c [= <-].
    + intros c. change (replicate 1 PIPE) with [PIPE].
      rewrite app_assoc, last_snoc. by intros [= <-].
Qed.

(** ** Dictionaries *)

Lemma dict_set_fresh {V} k (v : V) d :
  k ∉ dict_keys d -> dict_set k v d = d ++ [(k, v)].
Proof.
  induction d as [|[k' v'] d IH]; simpl; [done|].
  intros [Hk Hd]%not_elem_of_cons.
  rewrite decide_False by done. by rewrite IH.
Qed.

Lemma dict_of_fresh {V} (pairs : list (str * V)) d :
  NoDup (dict_keys (d ++ pairs)) ->
  fold_left (fun d kv => dict_set kv.1 kv.2 d) pairs d = d ++ pairs.
Proof.
  revert d. induction pairs as [|[k v] pairs IH]; intros d Hnd; simpl.
  - by rewrite app_nil_r.
  - replace (d ++ (k, v) :: pairs) with ((d ++ [(k, v)]) ++ pairs) in *
      by (by rewrite <- app_assoc).
    rewrite dict_set_fresh, IH; [done|done|].
    unfold dict_keys in Hnd. rewrite !fmap_app in Hnd.
    apply NoDup_app in Hnd as [Hnd _]. apply NoDup_app in Hnd as (_ & Hk & _).
    intros Hin. apply (Hk _ Hin). simpl. apply list_elem_of_here.
Qed.

Lemma zip_keys {B} (hs : list str) (cells : list B) :
  length cells = length hs -> (zip hs cells).*1 = hs.
Proof.
  revert cells. induction hs as [|h hs IH]; intros [|c cells]; simpl; try done.
  intros [= Hlen]. by rewrite IH.
Qed.

Lemma dict_of_zip {B} (hs : list str) (cells : list B) :
  NoDup hs -> length cells = length hs -> dict_of (zip hs cells) = zip hs cells.
Proof.
  intros Hnd Hlen. unfold dict_of. rewrite dict_of_fresh; [done|].
  simpl. unfold dict_keys. by rewrite zip_keys.
Qed.

Lemma dict_get_zip {B} (hs : list str) (cells : list B) j h c :
  NoDup hs -> hs !! j = Some h -> cells !! j = Some c ->
  dict_get h (zip hs cells) = Some c.
Proof.
  intros Hnd. revert cells j.
  induction Hnd as [|h' hs Hh' Hnd IH]; intros [|c' cells] [|j]; simpl; try done.
  - intros [= ->] [= ->]. by rewrite decide_True.
  - intros Hj Hc. rewrite decide_False; [by eapply IH|].
    intros ->. apply Hh'. by eapply list_elem_of_lookup_2.
Qed.

(** ** The round trip *)

Lemma table_lines_rendered (H : list str) (rows : list (list str)) :
  Forall plain_cell H ->
  Forall (fun row => Forall plain_cell row) rows ->
  table_lines (render_table H rows)
    = render_row H :: separator_row (length H) :: (render_row <$> rows).
Proof.
  intros HH Hrows.
  assert (Hsep : Forall plain_cell (replicate (length H) (u "---"))).
  { apply Forall_replicate. repeat split.
    - vm_compute. intros Hin. repeat (apply elem_of_cons in Hin as [Hin|Hin]; [done|]).
      by apply elem_of_nil in Hin.
    - by repeat constructor. }
  assert (Hlines : Forall (fun l => (l <> [] /\ no_linebreak l) /\
                                  strip l = l /\ startswith_pipe l = true)
            (render_row H :: separator_row (length H) :: (render_row <$> rows))).
  { constructor; [|constructor].
    - destruct (render_row_line H HH) as (? & ? & ? & ?). done.
    - destruct (render_row_line _ Hsep) as (? & ? & ? & ?). done.
    - apply Forall_fmap. eapply Forall_impl; [exact Hrows|].
      intros row Hrow. destruct (render_row_line row Hrow) as (? & ? & ? & ?).
      done. }
  unfold table_lines, render_table.
  rewrite splitlines_join by (eapply Forall_impl; [exact Hlines|by intros l []]).
  induction Hlines as [|l lines (_ & Hl & Hp) _ IH]; [done|].
  rewrite filter_cons, decide_True by (by rewrite Hl).
  cbn [fmap list_fmap]. cbn [fmap] in IH. by rewrite Hl, IH.
Qed.

(** C2 (as amended). For a header that is not empty and names no column
    twice, and rows of as many cells as the header, all names and cells free
    of pipes and of line boundaries and with nothing to trim: parsing the
    rendered table gives, for each row in order, the record that pairs the
    names with the row's cells. *)
Theorem parse_rendered_table (H : list str) (rows : list (list str)) :
  H <> [] ->
  NoDup H ->
  Forall plain_cell H ->
  Forall (fun row => length row = length H /\ Forall plain_cell row) rows ->
  parse_markdown_table (render_table H rows) = (fun row => zip H row) <$> rows
  /\ Forall2 (reads_back H) rows (parse_markdown_table (render_table H rows)).
Proof.
  intros Hne Hnd HH Hrows.
  assert (Hplain : forall cells, Forall plain_cell cells -> Forall trimmed_cell cells)
    by (intros cells Hc; eapply Forall_impl; [exact Hc|by intros c []]).
  assert (Hparse : parse_markdown_table (render_table H rows)
                   = (fun row => zip H row) <$> rows).
  { rewrite (parse_markdown_table_rows _ _ _ _
               (table_lines_rendered H rows HH
                  (Forall_impl _ _ _ Hrows (fun _ Hr => proj2 Hr)))).
    rewrite row_cells_render_row by auto.
    induction Hrows as [|row rows [Hlen Hrow] Hrows IH]; [done|].
    assert (Hrne : row <> []) by (intros ->; by destruct H).
    cbn [fmap list_fmap]. cbn [fmap] in IH.
    rewrite filter_cons, decide_True by (by rewrite !row_cells_render_row by auto).
    cbn [fmap list_fmap]. rewrite IH.
    by rewrite row_cells_render_row, dict_of_zip by auto. }
  split; [exact Hparse|]. rewrite Hparse.
  apply Forall2_fmap_r, Forall_Forall2_diag.
  eapply Forall_impl; [exact Hrows|]. intros row [Hlen _]. split.
  - intros k. unfold dict_keys. by rewrite zip_keys.
  - intros j h c. by apply dict_get_zip.
Qed.

Lemma parse_rendered_table_witness :
  parse_markdown_table
    (render_table [u "Object Type"; u "Object Name"]
                  [[u "Task"; u "Review"]; [u "End Event"; []]])
  = [ [(u "Object Type", u "Task"); (u "Object Name", u "Review")];
      [(u "Object Type", u "End Event"); (u "Object Name", [])] ].
Proof.
  refine (proj1 (parse_rendered_table [u "Object Type"; u "Object Name"]
                   [[u "Task"; u "Review"]; [u "End Event"; []]] _ _ _ _)).
  - done.
  - apply (bool_decide_unpack _). vm_compute. exact I.
  - repeat constructor; vm_compute; try reflexivity;
      intros Hin; repeat (apply elem_of_cons in Hin as [Hin|Hin]; [done|]);
      by apply elem_of_nil in Hin.
  - repeat constructor; vm_compute; try reflexivity;
      intros Hin; repeat (apply elem_of_cons in Hin as [Hin|Hin]; [done|]);
      by apply elem_of_nil in Hin.
Defined.

Lemma parse_rendered_table_counterexample :
  Forall trimmed_cell [u "a"; u "a"] /\
  Forall (fun row => length row = 2%nat /\ Forall trimmed_cell row)
         [[u "1"; u "2"]] /\
  parse_markdown_table (render_table [u "a"; u "a"] [[u "1"; u "2"]])
    = [ [(u "a", u "2")] ] /\
  ~ Forall2 (reads_back [u "a"; u "a"]) [[u "1"; u "2"]]
      (parse_markdown_table (render_table [u "a"; u "a"] [[u "1"; u "2"]])).
Proof.
  assert (Hcell : forall c : str, bool_decide (PIPE ∈ c) = false -> strip c = c ->
                           trimmed_cell c).
  { intros c Hc Hs. split; [|done]. by apply bool_decide_eq_false in Hc. }
  split; [|split; [|split]].
  - repeat constructor; by apply Hcell.
  - repeat constructor; by apply Hcell.
  - by vm_compute.
  - intros Hall. apply Forall2_cons_inv_l in Hall as (r & rs & [_ Hget] & _ & Heq).
    specialize (Hget 0%nat (u "a") (u "1") eq_refl eq_refl).
    vm_compute in Heq. injection Heq as <- _.
    vm_compute in Hget. congruence.
Qed.

(** ** The matcher *)

Lemma greedy_Some {A} (try : nat -> option A) lo k r :
  Re.greedy try lo k = Some r ->
  exists j, (lo <= j <= k)%nat /\ try j = Some r.
Proof.
  induction k as [|k IH]; simpl.
  - destruct (Nat.ltb_spec 0 lo); [done|].
    destruct (try 0%nat) eqn:Ht; [|done]. intros [= ->]. exists 0%nat. split; [lia|done].
  - destruct (Nat.ltb_spec (S k) lo); [done|].
    destruct (try (S k)) eqn:Ht.
    + intros [= ->]. exists (S k). split; [lia|done].
    + intros Hg. destruct (IH Hg) as (j & Hj & Hr). exists j. split; [lia|done].
Qed.

Lemma greedy_None {A} (try : nat -> option A) lo k :
  Re.greedy try lo k = None ->
  forall j, (lo <= j <= k)%nat -> try j = None.
Proof.
  induction k as [|k IH]; simpl.
  - destruct (Nat.ltb_spec 0 lo); [intros _ j ?; lia|].
    destruct (try 0%nat) eqn:Ht; [done|]. intros _ j Hj.
    by replace j with 0%nat by lia.
  - destruct (Nat.ltb_spec (S k) lo); [intros _ j ?; lia|].
    destruct (try (S k)) eqn:Ht; [done|]. intros Hg j Hj.
    destruct (decide (j = S k)) as [->|Hne]; [done|].
    apply (IH Hg). lia.
Qed.

Lemma match_items_sound items s g :
  Re.match_items items s = Some g -> Re.accepts items s g.
Proof.
  revert s g. induction items as [|i items IH]; intros s g; simpl.
  - destruct (Re.at_end s); [|done]. by intros [= <-].
  - intros Hg. apply greedy_Some in Hg as (k & Hk & Htry).
    destruct (Re.match_items items (drop k s)) as [g'|] eqn:Hm; [|done].
    injection Htry as <-. exists k, g'. split; [done|]. split; [by apply IH|done].
Qed.

Lemma match_items_complete items s g :
  Re.accepts items s g -> is_Some (Re.match_items items s).
Proof.
  revert s g. induction items as [|i items IH]; intros s g; simpl.
  - intros [-> _]. by eexists.
  - intros (k & g' & Hk & Hacc & _).
    destruct (Re.greedy _ _ _) eqn:Hg; [by eexists|].
    apply (greedy_None _ _ _ Hg k) in Hk.
    destruct (IH _ _ Hacc) as [g'' Hm]. by rewrite Hm in Hk.
Qed.

Lemma run_length_prefix P a b :
  all P a -> (length a <= Re.run_length P (a ++ b))%nat.
Proof.
  induction 1 as [|c a Hc _ IH]; simpl; [lia|]. rewrite Hc. lia.
Qed.

Lemma run_length_take P k s :
  (k <= Re.run_length P s)%nat -> all P (take k s) /\ length (take k s) = k.
Proof.
  revert k. induction s as [|c s IH]; intros k; simpl.
  - intros Hk. replace k with 0%nat by lia. split; [constructor|done].
  - destruct k as [|k]; [split; [constructor|done]|].
    destruct (P c) eqn:Hc; [|lia]. intros Hk.
    destruct (IH k) as [Hall Hlen]; [lia|]. simpl. split; [by constructor|by rewrite Hlen].
Qed.

Lemma accepts_cons i items a b g g' :
  all (Re.i_class i) a -> Re.within (Re.i_quant i) (length a) ->
  Re.accepts items b g' ->
  g = (if Re.i_group i then Some a else g') ->
  Re.accepts (i :: items) (a ++ b) g.
Proof.
  intros Ha [Hmin Hmax] Hacc ->. simpl. exists (length a), g'.
  rewrite drop_app_length, take_app_length. split; [|done].
  pose proof (run_length_prefix _ a b Ha).
  split; [done|]. destruct (Re.i_quant i); unfold Re.q_max; lia.
Qed.

Lemma accepts_cons_inv i items s g :
  Re.accepts (i :: items) s g ->
  exists a b g',
    s = a ++ b /\ all (Re.i_class i) a /\ Re.within (Re.i_quant i) (length a) /\
    Re.accepts items b g' /\ g = (if Re.i_group i then Some a else g').
Proof.
  simpl. intros (k & g' & [Hmin Hmax] & Hacc & ->).
  exists (take k s), (drop k s), g'.
  assert (Hk : (k <= Re.run_length (Re.i_class i) s)%nat)
    by (destruct (Re.i_quant i); unfold Re.q_max in Hmax; lia).
  destruct (run_length_take _ _ _ Hk) as [Hall Hlen].
  rewrite take_drop, Hlen. repeat split; try done.
  destruct (Re.i_quant i); unfold Re.q_max in Hmax; try done; lia.
Qed.

Section NumberedLines.
Context `{UnicodeData}.

Lemma numbered_accepts line label :
  numbered line label -> LF ∉ label ->
  Re.accepts numbered_item line (Some label).
Proof.
  intros (ws & rest & -> & Hws & idx & dot & sp & -> & Hidx & Hdec & Hdot
          & Hsp & Hspace & Hlabel) Hlf.
  unfold numbered_item.
  eapply accepts_cons; [exact Hws|by split; simpl; [lia|]| |reflexivity].
  eapply accepts_cons; [exact Hdec| | |reflexivity].
  { split; [|done]. simpl. destruct idx; [done|simpl; lia]. }
  eapply accepts_cons; [| | |reflexivity].
  { destruct Hdot as [->| ->]; [constructor|]. by repeat constructor. }
  { destruct Hdot as [->| ->]; split; simpl; lia. }
  eapply accepts_cons; [exact Hspace| | |reflexivity].
  { split; [|done]. simpl. destruct sp; [done|simpl; lia]. }
  rewrite <- (app_nil_r label) at 1.
  eapply accepts_cons; [| |by split|reflexivity].
  - simpl. apply Forall_forall. intros c Hc. apply negb_true_iff, N.eqb_neq.
    intros ->. by apply Hlf.
  - split; [|done]. simpl. destruct label; [done|simpl; lia].
Qed.

Lemma accepts_numbered line g :
  Re.accepts numbered_item line g -> LF ∉ line ->
  exists label, g = Some label /\ numbered line label.
Proof.
  unfold numbered_item. intros Hacc Hlf.
  apply accepts_cons_inv in Hacc as (ws & r1 & g1 & -> & Hws & _ & Hacc & ->).
  apply accepts_cons_inv in Hacc as (idx & r2 & g2 & -> & Hdec & [Hidx _] & Hacc & ->).
  apply accepts_cons_inv in Hacc as (dot & r3 & g3 & -> & Hdot & [_ Hd1] & Hacc & ->).
  apply accepts_cons_inv in Hacc as (sp & r4 & g4 & -> & Hspace & [Hsp _] & Hacc & ->).
  apply accepts_cons_inv in Hacc as (label & r5 & g5 & -> & _ & [Hlabel _] & Hacc & ->).
  simpl in *. destruct Hacc as [Hend _].
  assert (r5 = []) as ->.
  { destruct r5 as [|c [|? ?]]; [done| |done]. apply N.eqb_eq in Hend as ->.
    exfalso. apply Hlf. rewrite !elem_of_app. do 5 right. apply list_elem_of_here. }
  rewrite app_nil_r. exists label. split; [done|].
  exists ws, (idx ++ dot ++ sp ++ label). split; [done|]. split; [done|].
  exists idx, dot, sp. repeat split; try done.
  - intros ->. simpl in Hidx. lia.
  - destruct dot as [|c [|? ?]]; [by left| |simpl in Hd1; lia].
    right. apply Forall_cons in Hdot as [Hc _]. by apply N.eqb_eq in Hc as <-.
  - intros ->. simpl in Hsp. lia.
  - intros ->. simpl in Hlabel. lia.
Qed.

End NumberedLines.

Lemma splitlines_no_linebreak s : Forall no_linebreak (splitlines s).
Proof.
  remember (length s) as n eqn:Hn. revert s Hn.
  induction n as [n IH] using lt_wf_ind. intros s ->.
  destruct s as [|c s]; simpl; [constructor|].
  destruct (islinebreak c) eqn:Hc.
  - constructor; [constructor|]. destruct s as [|c' s']; [constructor|].
    destruct ((c =? CR) && (c' =? LF)); (eapply IH; [|done]); simpl; lia.
  - assert (Hs : Forall no_linebreak (splitlines s)) by (eapply IH; [|done]; simpl; lia).
    destruct Hs as [|line lines Hline Hlines]; repeat constructor; done.
Qed.

Lemma no_linebreak_LF line : no_linebreak line -> LF ∉ line.
Proof.
  intros Hline Hin. eapply Forall_forall in Hline; [|exact Hin]. done.
Qed.

Section NumberedList.
Context `{UnicodeData}.

Lemma numbered_list_loop (lines items : list str) :
  fold_left
    (fun items line =>
       match Re.match_items numbered_item line with
       | Some (Some label) => items ++ [strip label]
       | _ => items
       end)
    lines items
  = items ++ concat ((fun line =>
                        match Re.match_items numbered_item line with
                        | Some (Some label) => [strip label]
                        | _ => []
                        end) <$> lines).
Proof.
  revert items. induction lines as [|line lines IH]; intros items.
  - simpl. by rewrite app_nil_r.
  - cbn [fold_left fmap list_fmap concat]. cbn [fmap] in IH. rewrite IH.
    destruct (Re.match_items numbered_item line) as [[label|]|];
      cbn [app]; by rewrite <- ?app_assoc.
Qed.

Lemma match_numbered line :
  LF ∉ line ->
  match Re.match_items numbered_item line with
  | Some (Some label) => numbered line label
  | Some None => False
  | None => forall label, ~ numbered line label
  end.
Proof.
  intros Hlf. destruct (Re.match_items numbered_item line) as [g|] eqn:Hm.
  - apply match_items_sound, accepts_numbered in Hm as (label & -> & Hn); done.
  - intros label Hn.
    assert (Hl : LF ∉ label).
    { intros Hin. apply Hlf.
      destruct Hn as (ws & rest & -> & _ & idx & dot & sp & -> & _).
      rewrite !elem_of_app. by do 4 right. }
    apply numbered_accepts, match_items_complete in Hn as [g Hg]; [|done].
    by rewrite Hg in Hm.
Qed.

Lemma numbered_after_index line label :
  (forall c, isdecimal c = true -> isspace c = false) ->
  numbered line label -> strip label = strip (after_index line).
Proof.
  intros Hdisj (ws & rest & -> & Hws & idx & dot & sp & -> & Hidx & Hdec & Hdot
                & Hsp & Hspace & Hlabel).
  assert (Hsp_dec : forall c, head (sp ++ label) = Some c -> isdecimal c = false).
  { destruct Hspace as [|c sp Hc _]; [done|]. intros c' [= <-].
    destruct (isdecimal c) eqn:Hd; [|done]. apply Hdisj in Hd. congruence. }
  unfold after_index. rewrite (lstrip_of_all isspace ws _ Hws).
  rewrite (lstrip_of_stop isspace).
  2:{ destruct Hdec as [|c idx Hc _]; [done|]. intros c' [= <-]. by apply Hdisj. }
  rewrite (lstrip_of_all isdecimal idx _ Hdec).
  rewrite (lstrip_of_stop isdecimal).
  2:{ destruct Hdot as [-> | ->]; [exact Hsp_dec|by intros c [= <-]]. }
  assert (Hstrip : strip (sp ++ label) = strip label).
  { unfold strip, strip_of. by rewrite (lstrip_of_all isspace sp _ Hspace). }
  destruct Hdot as [-> | ->].
  - destruct Hspace as [|c sp Hc Hspace]; [done|]. cbn [app].
    destruct (N.eqb_spec c DOT) as [->|_]; [done|].
    by rewrite <- Hstrip.
  - cbn [app]. by rewrite N.eqb_refl, Hstrip.
Qed.

Lemma labels_of_lines lines :
  Forall no_linebreak lines ->
  labels_of numbered lines
    (concat ((fun line =>
                match Re.match_items numbered_item line with
                | Some (Some label) => [strip label]
                | _ => []
                end) <$> lines)).
Proof.
  induction 1 as [|line lines Hline _ IH]; [constructor|].
  cbn [fmap list_fmap concat]. cbn [fmap] in IH.
  pose proof (match_numbered line (no_linebreak_LF _ Hline)) as Hm.
  destruct (Re.match_items numbered_item line) as [[label|]|];
    [by apply labels_item|done|by apply labels_skip].
Qed.

Lemma labels_of_unique lines out :
  (forall c, isdecimal c = true -> isspace c = false) ->
  Forall no_linebreak lines ->
  labels_of numbered lines out ->
  out = concat ((fun line =>
                   match Re.match_items numbered_item line with
                   | Some (Some label) => [strip label]
                   | _ => []
                   end) <$> lines).
Proof.
  intros Hdisj Hlines Hout.
  induction Hout as [|line lines out Hno _ IH|line label lines out Hn _ IH].
  - done.
  - apply Forall_cons in Hlines as [Hline Hlines].
    cbn [fmap list_fmap concat]. cbn [fmap] in IH. rewrite <- IH by done.
    pose proof (match_numbered line (no_linebreak_LF _ Hline)) as Hm.
    destruct (Re.match_items numbered_item line) as [[label|]|];
      [by destruct (Hno label)|done|done].
  - apply Forall_cons in Hlines as [Hline Hlines].
    cbn [fmap list_fmap concat]. cbn [fmap] in IH. rewrite <- IH by done.
    pose proof (match_numbered line (no_linebreak_LF _ Hline)) as Hm.
    destruct (Re.match_items numbered_item line) as [[label'|]|];
      [|done|by destruct (Hm label)].
    cbn [app]. f_equal.
    by rewrite (numbered_after_index _ _ Hdisj Hn),
               (numbered_after_index _ _ Hdisj Hm).
Qed.

(** C5 (as amended). The output lists, in the order of the lines, the
    trimmed label of every line that is, after any leading white space, an
    index of one or more digits, an optional dot, white space and a label,
    and nothing for the other lines; no other list does.  The sample text
    gives Alice, Bob, Carol; a label that occurs twice is listed twice; the
    empty text gives the empty list. *)
Theorem parse_numbered_list_labels (text : str) :
  (forall c, isdecimal c = true -> isspace c = false) ->
  labels_of numbered (splitlines text) (parse_numbered_list text)
  /\ (forall out,
        labels_of numbered (splitlines text) out -> out = parse_numbered_list text)
  /\ parse_numbered_list three_names = [u "Alice"; u "Bob"; u "Carol"]
  /\ parse_numbered_list (u "1. Alice" ++ nl ++ u "2. Alice")
       = [u "Alice"; u "Alice"]
  /\ parse_numbered_list [] = [].
Proof.
  intros Hdisj. unfold parse_numbered_list at 1 2.
  rewrite numbered_list_loop. cbn [app]. repeat split.
  - apply labels_of_lines, splitlines_no_linebreak.
  - intros out. apply labels_of_unique; [done|apply splitlines_no_linebreak].
Qed.

End NumberedList.

Lemma ascii_decimal_not_space (c : char) :
  @isdecimal ascii_only c = true -> isspace c = false.
Proof.
  unfold isdecimal, isspace, between. simpl.
  destruct (N.ltb_spec c 128); [|done].
  intros [?%N.leb_le ?%N.leb_le]%andb_true_iff.
  repeat (apply orb_false_intro);
    try (apply andb_false_iff); rewrite ?N.leb_gt, ?N.eqb_neq; lia.
Qed.

Lemma parse_numbered_list_labels_witness :
  labels_of (@numbered ascii_only)
    (splitlines (u "  7 Dave" ++ nl ++ u "x"))
    (@parse_numbered_list ascii_only (u "  7 Dave" ++ nl ++ u "x"))
  /\ @parse_numbered_list ascii_only (u "  7 Dave" ++ nl ++ u "x") = [u "Dave"].
Proof.
  split.
  - exact (proj1 (@parse_numbered_list_labels ascii_only
                    (u "  7 Dave" ++ nl ++ u "x") ascii_decimal_not_space)).
  - vm_compute. reflexivity.
Defined.

Lemma spec_numbered_counterexample :
  @parse_numbered_list ascii_only (u " 1. Alice") = [u "Alice"] /\
  ~ labels_of (@spec_numbered ascii_only)
      (splitlines (u " 1. Alice"))
      (@parse_numbered_list ascii_only (u " 1. Alice")).
Proof.
  split; [by vm_compute|].
  replace (@parse_numbered_list ascii_only (u " 1. Alice")) with [u "Alice"]
    by (by vm_compute).
  replace (splitlines (u " 1. Alice")) with [u " 1. Alice"] by (by vm_compute).
  intros Hl. inversion Hl as [|line lines out Hno Hrest|line label lines out Hn Hrest];
    subst.
  - inversion Hrest.
  - destruct Hn as (idx & dot & sp & Hline & Hidx & Hdec & _).
    destruct Hdec as [|c idx Hc _]; [done|].
    injection Hline as <- _. by vm_compute in Hc.
Qed.

(** ** Writing rows *)

Lemma dict_to_list_ok hs (r : record) :
  dict_keys r ⊆ hs -> dict_to_list hs r = inr (csv_line hs r).
Proof.
  intros Hsub. unfold dict_to_list.
  replace (filter (fun k => k ∉ hs) (dict_keys r)) with (@nil str); [done|].
  symmetry. induction (dict_keys r) as [|k ks IH]; [done|].
  rewrite filter_cons, decide_False.
  - apply IH. intros k' Hk'. apply Hsub. by apply list_elem_of_further.
  - intros Hk. apply Hk, Hsub, list_elem_of_here.
Qed.

Lemma dict_to_list_extra hs (r : record) :
  ~ dict_keys r ⊆ hs ->
  exists k ks, dict_to_list hs r = inl (ValueError (k :: ks)).
Proof.
  intros Hsub. unfold dict_to_list.
  destruct (filter (fun k => k ∉ hs) (dict_keys r)) as [|k ks] eqn:Hf;
    [|by eauto].
  destruct Hsub. intros k Hk. destruct (decide (k ∈ hs)) as [|Hn]; [done|].
  by apply (filter_nil_not_elem_of _ _ k Hf) in Hn.
Qed.

Lemma writerows_ok hs rows f :
  Forall (fun r => dict_keys r ⊆ hs) rows ->
  writerows hs rows f = (f ++ (csv_line hs <$> rows), None).
Proof.
  intros Hrows. revert f.
  induction Hrows as [|r rows Hr _ IH]; intros f; simpl.
  - by rewrite app_nil_r.
  - rewrite dict_to_list_ok by done. rewrite IH. by rewrite <- app_assoc.
Qed.

Lemma writerows_extra hs pre r post f :
  Forall (fun r => dict_keys r ⊆ hs) pre -> ~ dict_keys r ⊆ hs ->
  exists k ks,
    writerows hs (pre ++ r :: post) f
      = (f ++ (csv_line hs <$> pre), Some (ValueError (k :: ks))).
Proof.
  intros Hpre Hr. destruct (dict_to_list_extra hs r Hr) as (k & ks & He).
  exists k, ks. revert f.
  induction Hpre as [|r' pre Hr' _ IH]; intros f; simpl.
  - by rewrite He, app_nil_r.
  - rewrite dict_to_list_ok by done. rewrite IH. by rewrite <- app_assoc.
Qed.

Lemma first_extra hs (rows : list record) :
  (exists r k, r ∈ rows /\ k ∈ dict_keys r /\ k ∉ hs) ->
  exists pre r post,
    rows = pre ++ r :: post /\
    Forall (fun r => dict_keys r ⊆ hs) pre /\ ~ dict_keys r ⊆ hs.
Proof.
  induction rows as [|r0 rows IH]; intros (r & k & Hr & Hk & Hn).
  - by apply elem_of_nil in Hr.
  - destruct (decide (Forall (fun k => k ∈ hs) (dict_keys r0))) as [Hok|Hbad].
    + apply elem_of_cons in Hr as [->|Hr].
      { destruct Hn. eapply Forall_forall in Hok; [exact Hok|done]. }
      destruct IH as (pre & r' & post & -> & Hpre & Hr'); [by eauto|].
      exists (r0 :: pre), r', post. split; [done|]. split; [|done].
      constructor; [|done]. intros k' Hk'. by eapply Forall_forall in Hok.
    + exists [], r0, rows. split; [done|]. split; [constructor|].
      intros Hsub. apply Hbad, Forall_forall. intros k' Hk'. by apply Hsub.
Qed.

(** ** Keys of the parsed records *)

Lemma dict_set_keys {V} k (v : V) d k' :
  k' ∈ dict_keys (dict_set k v d) <-> k' = k \/ k' ∈ dict_keys d.
Proof.
  unfold dict_keys. induction d as [|[k0 v0] d IH]; simpl.
  - rewrite list_elem_of_singleton, elem_of_nil. tauto.
  - destruct (decide (k0 = k)) as [->|Hne]; simpl.
    + rewrite !elem_of_cons. tauto.
    + rewrite !elem_of_cons, IH. tauto.
Qed.

Lemma dict_of_keys {V} (pairs : list (str * V)) k :
  k ∈ dict_keys (dict_of pairs) <-> k ∈ pairs.*1.
Proof.
  unfold dict_of.
  assert (Hgen : forall d, k ∈ dict_keys (fold_left (fun d kv => dict_set kv.1 kv.2 d) pairs d)
                      <-> k ∈ dict_keys d \/ k ∈ pairs.*1).
  { induction pairs as [|[k0 v0] pairs IH]; intros d; simpl.
    - rewrite elem_of_nil. tauto.
    - rewrite IH, dict_set_keys, elem_of_cons. simpl. tauto. }
  rewrite Hgen. unfold dict_keys. simpl. rewrite elem_of_nil. tauto.
Qed.

Lemma parse_markdown_table_keys md h sep body r k :
  table_lines md = h :: sep :: body ->
  r ∈ parse_markdown_table md ->
  k ∈ dict_keys r <-> k ∈ row_cells h.
Proof.
  intros Hlines. rewrite (parse_markdown_table_rows _ _ _ _ Hlines).
  intros (row & -> & [Hlen _]%list_elem_of_filter)%list_elem_of_fmap.
  by rewrite dict_of_keys, zip_keys.
Qed.

(** ** Stage 1 and the loop *)

Section Stages.
Context `{UnicodeData} (E : env).

Lemma main_stage2 pdf_path output_dir fs pages resp p ps :
  pdf_pages E pdf_path = inr pages ->
  strip (full_text pages) <> [] ->
  gpt E 0 (get_participants_prompt (full_text pages)) = inr resp ->
  parse_numbered_list (strip resp) = p :: ps ->
  main E pdf_path output_dir (start fs)
    = (let* bpmn_tables :=
         for_participants E (full_text pages) output_dir (p :: ps) [] in
       message_flows E output_dir bpmn_tables >> print MsgAllDone)
        (after_stage1 pdf_path (full_text pages) (p :: ps) fs).
Proof.
  intros Hpages Htext Hresp Hps.
  unfold main, extract_text_from_pdf.
  unfold bind at 1. unfold print at 1. unfold emit at 1. unfold start.
  cbn [events files app].
  unfold bind at 1. unfold bind at 1. rewrite Hpages. unfold of_result, ret.
  destruct (strip (full_text pages)) as [|c t] eqn:Hs; [done|].
  unfold bind at 1. unfold print at 1. unfold emit at 1. cbn [events files app].
  unfold bind at 1. unfold call_gpt at 1. cbn [events files app].
  change (length (model_calls _)) with 0%nat at 1.
  rewrite Hresp, Hps.
  unfold bind at 1. unfold print at 1. unfold emit at 1. cbn [events files app].
  reflexivity.
Qed.

Lemma for_participants_app sop out pre post t w w1 r :
  for_participants E sop out pre t w = (w1, r) ->
  for_participants E sop out (pre ++ post) t w
    = match r with
      | inr t1 => for_participants E sop out post t1 w1
      | inl e => (w1, inl e)
      end.
Proof.
  revert t w. induction pre as [|p pre IH]; intros t w.
  - simpl. unfold ret. by intros [= <- <-].
  - cbn [app]. rewrite !for_participants_cons. cbn zeta.
    destruct (gpt E _ _) as [e|reply]; [by intros [= <- <-]|].
    destruct (parse_markdown_table (strip reply)) as [|r0 rows]; [apply IH|].
    destruct (os_ok E _); [|by intros [= <- <-]].
    destruct (writerows _ _ _) as [f [e|]]; [by intros [= <- <-]|apply IH].
Qed.

End Stages.

Lemma dict_to_list_wrong_fields hs (r : record) :
  ~ dict_keys r ⊆ hs ->
  exists k ks,
    filter (fun k => k ∉ hs) (dict_keys r) = k :: ks /\
    dict_to_list hs r = inl (ValueError (k :: ks)).
Proof.
  intros Hsub. unfold dict_to_list.
  destruct (filter (fun k => k ∉ hs) (dict_keys r)) as [|k ks] eqn:Hf;
    [|by eauto].
  destruct Hsub. intros k Hk. destruct (decide (k ∈ hs)) as [|Hn]; [done|].
  by apply (filter_nil_not_elem_of _ _ k Hf) in Hn.
Qed.

Lemma writerows_wrong_fields hs pre r post f :
  Forall (fun r => dict_keys r ⊆ hs) pre -> ~ dict_keys r ⊆ hs ->
  exists k ks,
    filter (fun k => k ∉ hs) (dict_keys r) = k :: ks /\
    writerows hs (pre ++ r :: post) f
      = (f ++ (csv_line hs <$> pre), Some (ValueError (k :: ks))).
Proof.
  intros Hpre Hr.
  destruct (dict_to_list_wrong_fields hs r Hr) as (k & ks & Hf & He).
  exists k, ks. split; [done|]. revert f.
  induction Hpre as [|r' pre Hr' _ IH]; intros f; simpl.
  - by rewrite He, app_nil_r.
  - rewrite dict_to_list_ok by done. rewrite IH. by rewrite <- app_assoc.
Qed.

Section ExtraColumn.
Context `{UnicodeData} (E : env).

(** C9. [write_csv] raises when a record has a key that is not among the
    headers, and the row of the first such record is not written: when the
    file can be opened the error is the [ValueError] of [csv.DictWriter],
    naming the keys of that record that are no headers, and the file keeps
    the header and the rows before the first such record, all of them
    records within the headers; when the file cannot be opened nothing is
    written.  In a run, a reply whose table has rows and a column outside
    the seven names therefore ends the run with that error while the file
    is written (it keeps the header line alone): the participant is not
    reported as unparsable, no later participant is prompted and the
    message-flow stage is not run. *)
Theorem extra_column_aborts
    (rows : list record) (hs : list str) (out : str) (w : world)
    (pdf_path output_dir : str) (fs : gmap str csv_file)
    (pages : list (option str)) (resp : str) (pre : list str) (p : str)
    (post : list str) (w1 : world) (t1 : dict str) (reply h sep : str)
    (body : list str) (k : str) :
  ((exists r k, r ∈ rows /\ k ∈ dict_keys r /\ k ∉ hs) ->
   exists w' e,
     write_csv E rows hs out w = (w', inl e) /\
     (os_ok E out = false -> w' = w /\ e = SinkError out) /\
     (os_ok E out = true ->
      exists pre r post k ks,
        rows = pre ++ r :: post /\
        Forall (fun r' => dict_keys r' ⊆ hs) pre /\
        ~ dict_keys r ⊆ hs /\
        e = ValueError (k :: ks) /\
        (forall k', k' ∈ k :: ks <-> k' ∈ dict_keys r /\ k' ∉ hs) /\
        events w' = events w ++ [Store out (hs :: (csv_line hs <$> pre))] /\
        files w' !! out = Some (hs :: (csv_line hs <$> pre))))
  /\
  (pdf_pages E pdf_path = inr pages ->
   strip (full_text pages) <> [] ->
   gpt E 0 (get_participants_prompt (full_text pages)) = inr resp ->
   parse_numbered_list (strip resp) = pre ++ p :: post ->
   for_participants E (full_text pages) output_dir pre []
     (after_stage1 pdf_path (full_text pages) (pre ++ p :: post) fs)
     = (w1, inr t1) ->
   gpt E (length (model_calls w1)) (get_bpmn_prompt p (full_text pages))
     = inr reply ->
   table_lines (strip reply) = h :: sep :: body ->
   parse_markdown_table (strip reply) <> [] ->
   k ∈ row_cells h -> k ∉ headers ->
   exists w2 e,
     main E pdf_path output_dir (start fs) = (w2, inl e) /\
     model_calls w2 = model_calls w1 ++ [get_bpmn_prompt p (full_text pages)] /\
     prints w2 = prints w1 ++ [MsgGenerating p] /\
     (os_ok E (bpmn_path output_dir p) = false ->
      e = SinkError (bpmn_path output_dir p) /\ stores w2 = stores w1) /\
     (os_ok E (bpmn_path output_dir p) = true ->
      (exists ks, e = ValueError ks) /\
      stores w2 = stores w1 ++ [(bpmn_path output_dir p, [headers])] /\
      files w2 !! bpmn_path output_dir p = Some [headers])).
Proof.
  split.
  - intros Hex.
    destruct (first_extra hs rows Hex) as (pre' & r & post' & Hrows & Hpre & Hr).
    destruct (writerows_wrong_fields hs pre' r post' [hs] Hpre Hr)
      as (k' & ks & Hf & Hw).
    unfold write_csv. destruct (os_ok E out).
    + exists (World (events w ++ [Store out (hs :: (csv_line hs <$> pre'))])
                    (<[out := hs :: (csv_line hs <$> pre')]> (files w))),
             (ValueError (k' :: ks)).
      split.
      { match goal with
        | |- context [writerows ?a ?b ?c] =>
          replace (writerows a b c) with
            (hs :: (csv_line hs <$> pre'), Some (ValueError (k' :: ks)))
            by (rewrite Hrows; symmetry; exact Hw)
        end. done. }
      split; [done|]. intros _.
      assert (Hfields : forall k0, k0 ∈ k' :: ks <-> k0 ∈ dict_keys r /\ k0 ∉ hs).
      { intros k0. rewrite <- Hf, list_elem_of_filter. tauto. }
      exists pre', r, post', k', ks.
      split; [done|]. split; [done|]. split; [done|]. split; [done|].
      split; [exact Hfields|]. split; [done|].
      cbn [files]. apply lookup_insert_eq.
    + exists w, (SinkError out). split; [done|]. split; done.
  - intros Hpages Htext Hresp Hps Hpre Hreply Hlines Hrows Hk Hnk.
    assert (Hne : exists p0 ps0, pre ++ p :: post = p0 :: ps0)
      by (destruct pre; simpl; eauto).
    destruct Hne as (p0 & ps0 & Hne). rewrite Hne in Hps.
    rewrite (main_stage2 E _ _ _ _ _ _ _ Hpages Htext Hresp Hps). rewrite <- Hne.
    unfold bind at 1.
    rewrite (for_participants_app E _ _ pre (p :: post) _ _ _ _ Hpre).
    rewrite for_participants_cons. cbn zeta. rewrite Hreply.
    destruct (parse_markdown_table (strip reply)) as [|r rows'] eqn:Hparse; [done|].
    assert (Hr : ~ dict_keys r ⊆ headers).
    { intros Hsub. apply Hnk, Hsub.
      apply (parse_markdown_table_keys _ _ _ _ r k Hlines); [|done].
      rewrite Hparse. apply list_elem_of_here. }
    destruct (writerows_extra headers [] r rows' [headers]) as (k' & ks & Hw);
      [constructor|done|]. cbn [app] in Hw.
    destruct (os_ok E (bpmn_path output_dir p)).
    + match goal with
      | |- context [writerows ?a ?b ?c] =>
        replace (writerows a b c) with
          (headers :: (csv_line headers <$> []), Some (ValueError (k' :: ks)))
          by (symmetry; exact Hw)
      end.
      eexists _, _. split; [done|].
      unfold model_calls, prints, stores. cbn [events files].
      rewrite !omap_app. cbn [omap list_omap].
      split; [done|]. split; [done|]. split; [done|]. intros _.
      split; [by eexists|]. split; [done|]. apply lookup_insert_eq.
    + eexists _, _. split; [done|].
      unfold model_calls, prints, stores. cbn [events].
      rewrite !omap_app. cbn [omap list_omap].
      split; [done|]. split; [done|].
      split; [intros _; split; [done|by rewrite app_nil_r]|done].
Qed.

End ExtraColumn.

Lemma extra_column_aborts_witness :
  (exists w' e,
     write_csv (stage2_env (inr notes_table))
       (parse_markdown_table notes_table) headers (u "out/x.csv") (start ∅)
       = (w', inl e) /\
     (os_ok (stage2_env (inr notes_table)) (u "out/x.csv") = true ->
      exists pre r post k ks,
        parse_markdown_table notes_table = pre ++ r :: post /\
        Forall (fun r' => dict_keys r' ⊆ headers) pre /\
        ~ dict_keys r ⊆ headers /\
        e = ValueError (k :: ks) /\
        files w' !! u "out/x.csv" = Some (headers :: (csv_line headers <$> pre))))
  /\
  (exists w2 e,
     @main ascii_only (stage2_env (inr notes_table)) (u "sop.pdf") (u "out")
       (start ∅) = (w2, inl e) /\
     model_calls w2
       = model_calls
           (@for_participants ascii_only (stage2_env (inr notes_table))
              (full_text sample_pages) (u "out") [u "Alice"] []
              (after_stage1 (u "sop.pdf") (full_text sample_pages)
                 [u "Alice"; u "Bob"; u "Carol"] ∅)).1
         ++ [get_bpmn_prompt (u "Bob") (full_text sample_pages)] /\
     prints w2
       = prints
           (@for_participants ascii_only (stage2_env (inr notes_table))
              (full_text sample_pages) (u "out") [u "Alice"] []
              (after_stage1 (u "sop.pdf") (full_text sample_pages)
                 [u "Alice"; u "Bob"; u "Carol"] ∅)).1
         ++ [MsgGenerating (u "Bob")] /\
     (os_ok (stage2_env (inr notes_table)) (@bpmn_path ascii_only (u "out") (u "Bob")) = true ->
      (exists ks, e = ValueError ks) /\
      files w2 !! @bpmn_path ascii_only (u "out") (u "Bob") = Some [headers])).
Proof.
  destruct (@extra_column_aborts ascii_only (stage2_env (inr notes_table))
              (parse_markdown_table notes_table) headers (u "out/x.csv") (start ∅)
              (u "sop.pdf") (u "out") ∅ sample_pages
              three_names [u "Alice"] (u "Bob") [u "Carol"]
              (@for_participants ascii_only (stage2_env (inr notes_table))
                 (full_text sample_pages) (u "out") [u "Alice"] []
                 (after_stage1 (u "sop.pdf") (full_text sample_pages)
                    [u "Alice"; u "Bob"; u "Carol"] ∅)).1
              [(u "Alice", task_table (u "Review"))]
              notes_table (u "| Object Type | Notes |") (u "| --- | --- |")
              [u "| Task | urgent |"] (u "Notes"))
    as [Hwrite Hrun].
  split.
  - destruct Hwrite as (w' & e & Hw & _ & Hok).
    + exists [(u "Object Type", u "Task"); (u "Notes", u "urgent")], (u "Notes").
      split; [vm_compute; apply list_elem_of_here|].
      split; [vm_compute; apply list_elem_of_further, list_elem_of_here|].
      apply (bool_decide_unpack (u "Notes" ∉ headers)). vm_compute. exact I.
    + exists w', e. split; [exact Hw|]. intros Hos.
      destruct (Hok Hos) as (pre & r & post & k & ks & H1 & H2 & H3 & H4 & _ & _ & H5).
      by exists pre, r, post, k, ks.
  - destruct Hrun as (w2 & e & Hmain & Hcalls & Hprints & _ & Hok).
    + reflexivity.
    + vm_compute. congruence.
    + reflexivity.
    + vm_compute. reflexivity.
    + vm_compute. reflexivity.
    + vm_compute. reflexivity.
    + vm_compute. reflexivity.
    + vm_compute. congruence.
    + vm_compute. apply list_elem_of_further, list_elem_of_here.
    + apply (bool_decide_unpack (u "Notes" ∉ headers)). vm_compute. exact I.
    + exists w2, e. split; [exact Hmain|]. split; [exact Hcalls|].
      split; [exact Hprints|]. intros Hos.
      destruct (Hok Hos) as (He & _ & Hfile). by split.
Defined.

(** ** The retained map and the files after the loop *)

Lemma dict_get_set {V} k (v : V) d p :
  dict_get p (dict_set k v d) = if decide (k = p) then Some v else dict_get p d.
Proof.
  induction d as [|[k0 v0] d IH]; simpl.
  - done.
  - destruct (decide (k0 = k)) as [->|Hne]; simpl.
    + by destruct (decide (k = p)).
    + rewrite IH. destruct (decide (k0 = p)) as [->|]; [|done].
      by rewrite decide_False.
Qed.

Lemma dict_set_NoDup {V} k (v : V) d :
  NoDup (dict_keys d) -> NoDup (dict_keys (dict_set k v d)).
Proof.
  unfold dict_keys. induction d as [|[k0 v0] d IH]; simpl.
  - intros _. apply NoDup_singleton.
  - intros [Hk0 Hd]%NoDup_cons. destruct (decide (k0 = k)) as [->|Hne]; simpl.
    + by apply NoDup_cons.
    + apply NoDup_cons. split; [|by apply IH].
      intros [->|Hin]%(dict_set_keys k v d k0); done.
Qed.

Lemma dict_set_elem {V} k (v : V) d kv :
  kv ∈ dict_set k v d -> kv = (k, v) \/ kv ∈ d.
Proof.
  induction d as [|[k0 v0] d IH]; simpl.
  - intros ->%list_elem_of_singleton. by left.
  - destruct (decide (k0 = k)) as [->|Hne].
    + intros [->|Hin]%elem_of_cons; [by left|]. right. by apply list_elem_of_further.
    + intros [->|Hin]%elem_of_cons; [right; apply list_elem_of_here|].
      destruct (IH Hin) as [->|Hd]; [by left|]. right. by apply list_elem_of_further.
Qed.

Section Retained.
Context {V : Type}.
Implicit Types (won : list (str * V)) (t : dict V).

Lemma retained_get won t p :
  dict_get p (fold_left (fun t pm => dict_set pm.1 pm.2 t) won t)
  = match last (filter (fun pm => pm.1 = p) won) with
    | Some pm => Some pm.2
    | None => dict_get p t
    end.
Proof.
  revert t. induction won as [|pm won IH]; intros t; simpl; [done|].
  rewrite IH, filter_cons, dict_get_set.
  destruct (decide (pm.1 = p)) as [Hp|Hp]; [|done].
  rewrite last_cons. by destruct (last (filter _ won)).
Qed.

Lemma retained_NoDup won t :
  NoDup (dict_keys t) ->
  NoDup (dict_keys (fold_left (fun t pm => dict_set pm.1 pm.2 t) won t)).
Proof.
  revert t. induction won as [|pm won IH]; intros t Ht; simpl; [done|].
  by apply IH, dict_set_NoDup.
Qed.

Lemma retained_elem won t kv :
  kv ∈ fold_left (fun t pm => dict_set pm.1 pm.2 t) won t -> kv ∈ t \/ kv ∈ won.
Proof.
  revert t. induction won as [|[k v] won IH]; intros t; simpl; [by left|].
  intros [[->|Hin]%dict_set_elem|Hin]%IH.
  - right. apply list_elem_of_here.
  - by left.
  - right. by apply list_elem_of_further.
Qed.

End Retained.


Lemma writerows_None hs rows f f' :
  writerows hs rows f = (f', None) -> Forall (fun r => dict_keys r ⊆ hs) rows.
Proof.
  revert f. induction rows as [|r rows IH]; intros f; simpl; [constructor|].
  destruct (decide (dict_keys r ⊆ hs)) as [Hok|Hbad].
  - rewrite dict_to_list_ok by done. intros Hw. constructor; [done|by eapply IH].
  - destruct (dict_to_list_extra hs r Hbad) as (k & ks & ->). done.
Qed.

Section LoopRuns.
Context `{UnicodeData} (E : env).

Lemma for_participants_normal sop out ps t w :
  Forall (turn_ok E out) (answers E sop (length (model_calls w)) ps) ->
  exists w',
    for_participants E sop out ps t w
      = (w', inr (fold_left (fun t pm => dict_set pm.1 pm.2 t)
                    (successes (answers E sop (length (model_calls w)) ps)) t))
    /\ model_calls w'
       = model_calls w ++ ((fun p => get_bpmn_prompt p sop) <$> ps)
    /\ stores w'
       = stores w ++ ((fun pm => (bpmn_path out pm.1,
                                  csv_of (parse_markdown_table pm.2))) <$>
                      successes (answers E sop (length (model_calls w)) ps))
    /\ files w'
       = fold_left (fun fs pm => <[bpmn_path out pm.1 :=
                                     csv_of (parse_markdown_table pm.2)]> fs)
           (successes (answers E sop (length (model_calls w)) ps)) (files w).
Proof.
  revert t w. induction ps as [|p ps IH]; intros t w Hok.
  - exists w. simpl. by rewrite !app_nil_r.
  - cbn [answers] in *. apply Forall_cons in Hok as [Hp Hok].
    unfold turn_ok in Hp. cbn [fst snd] in Hp.
    rewrite for_participants_cons. cbn zeta.
    unfold successes. cbn [omap list_omap fst snd]. fold (successes (answers E sop (S (length (model_calls w))) ps)).
    destruct (gpt E (length (model_calls w)) (get_bpmn_prompt p sop))
      as [e|reply]; [done|].
    destruct (parse_markdown_table (strip reply)) as [|r rows] eqn:Hparse.
    + match goal with
      | |- context [for_participants E sop out ps t ?w0] =>
        destruct (IH t w0) as (w' & Hrun & Hcalls & Hstores & Hfiles)
      end.
      { unfold model_calls. cbn [events]. rewrite omap_app. cbn [omap list_omap].
        by rewrite length_app, Nat.add_1_r. }
      revert Hrun Hcalls Hstores Hfiles.
      unfold model_calls at 1 3 4 5 6, stores at 2. cbn [events files].
      rewrite !omap_app. cbn [omap list_omap]. rewrite length_app, Nat.add_1_r.
      fold (model_calls w). fold (stores w). rewrite app_nil_r.
      intros Hrun Hcalls Hstores Hfiles.
      exists w'. rewrite Hrun, Hcalls, Hstores, Hfiles.
      cbn [fmap list_fmap]. by rewrite <- !app_assoc.
    + destruct Hp as [|[Hos Hkeys]]; [done|]. rewrite Hos.
      rewrite (writerows_ok _ _ _ Hkeys).
      match goal with
      | |- context [for_participants E sop out ps ?t0 ?w0] =>
        destruct (IH t0 w0) as (w' & Hrun & Hcalls & Hstores & Hfiles)
      end.
      { unfold model_calls. cbn [events]. rewrite omap_app. cbn [omap list_omap].
        by rewrite length_app, Nat.add_1_r. }
      revert Hrun Hcalls Hstores Hfiles.
      unfold model_calls at 1 3 4 5 6, stores at 2. cbn [events files].
      rewrite !omap_app. cbn [omap list_omap]. rewrite length_app, Nat.add_1_r.
      fold (model_calls w). fold (stores w).
      intros Hrun Hcalls Hstores Hfiles.
      exists w'. rewrite Hrun, Hcalls, Hstores, Hfiles.
      cbn [fmap list_fmap fold_left fst snd]. rewrite Hparse.
      unfold csv_of. rewrite (writerows_ok _ _ _ Hkeys). cbn [fst].
      by rewrite <- !app_assoc.
Qed.

Lemma for_participants_inr sop out ps t w w' t' :
  for_participants E sop out ps t w = (w', inr t') ->
  Forall (turn_ok E out) (answers E sop (length (model_calls w)) ps).
Proof.
  revert t w. induction ps as [|p ps IH]; intros t w; [constructor|].
  rewrite for_participants_cons. cbn zeta. cbn [answers].
  intros Hrun. 
  assert (Hlen : forall es fs,
            omap (fun e => match e with ModelCall c => Some c | _ => None end) es = [get_bpmn_prompt p sop] ->
            S (length (model_calls w)) = length (model_calls (World (events w ++ es) fs))).
  { intros es fs Hes. unfold model_calls. cbn [events]. rewrite omap_app, Hes.
    by rewrite length_app, Nat.add_1_r. }
  constructor.
  - unfold turn_ok. cbn [fst snd].
    destruct (gpt E _ _) as [e|reply]; [done|].
    destruct (parse_markdown_table (strip reply)) as [|r rows]; [by left|right].
    destruct (os_ok E _); [|done].
    destruct (writerows _ _ _) as [f [e|]] eqn:Hw; [done|].
    split; [done|]. by eapply writerows_None.
  - destruct (gpt E _ _) as [e|reply]; [done|].
    destruct (parse_markdown_table (strip reply)) as [|r rows].
    + apply IH in Hrun. by rewrite <- Hlen in Hrun.
    + destruct (os_ok E _); [|done].
      destruct (writerows _ _ _) as [f [e|]] eqn:Hw; [done|].
      apply IH in Hrun. by rewrite <- Hlen in Hrun.
Qed.

Lemma successes_parsed replies p md :
  (p, md) ∈ successes replies -> parse_markdown_table md <> [].
Proof.
  unfold successes. intros ([p' [e|reply]] & _ & Hf)%list_elem_of_omap;
    cbn [fst snd] in Hf; [done|].
  destruct (parse_markdown_table (strip reply)) eqn:Hparse; [done|].
  injection Hf as <- <-. by rewrite Hparse.
Qed.

Lemma message_flows_calls out tables w :
  tables <> [] ->
  model_calls ((message_flows E out tables >> print MsgAllDone) w).1
    = model_calls w ++ [get_message_flows_prompt tables].
Proof.
  intros Hne. destruct tables as [|item tables]; [done|].
  unfold message_flows, bind, print, emit, call_gpt, write_csv.
  cbn [events files].
  destruct (gpt E _ _) as [e|mf]; cbn [fst].
  - unfold model_calls. cbn [events]. rewrite <- app_assoc, omap_app. done.
  - destruct (parse_markdown_table (strip mf)) as [|r rows]; cbn [fst events files].
    + unfold model_calls. cbn [events].
      rewrite <- !app_assoc, omap_app. done.
    + destruct (os_ok E _); cbn [fst].
      * destruct (writerows _ _ _) as [f [e|]]; cbn [fst events files];
          unfold model_calls; cbn [events]; rewrite <- !app_assoc, omap_app; done.
      * unfold model_calls. cbn [events]. rewrite <- !app_assoc, omap_app. done.
Qed.

End LoopRuns.

Section LoopRaises.
Context `{UnicodeData} (E : env).

Lemma answers_take sop n ps i :
  take i (answers E sop n ps) = answers E sop n (take i ps).
Proof.
  revert n i. induction ps as [|p ps IH]; intros n [|i]; cbn [answers take];
    try done.
  by rewrite IH.
Qed.

Lemma answers_lookup sop n ps i p r :
  answers E sop n ps !! i = Some (p, r) ->
  ps !! i = Some p /\ r = gpt E (n + i) (get_bpmn_prompt p sop).
Proof.
  revert n i. induction ps as [|p0 ps IH]; intros n [|i]; cbn [answers];
    try done.
  - intros [= <- <-]. by rewrite Nat.add_0_r.
  - intros Hi. apply IH in Hi. by rewrite Nat.add_succ_r.
Qed.

(** A call that raises ends the loop there: the turns before have run to
    their end, the participant is prompted, and nothing comes after. *)
Lemma for_participants_raises sop out ps t w i p e :
  answers E sop (length (model_calls w)) ps !! i = Some (p, inl e) ->
  Forall (turn_ok E out) (take i (answers E sop (length (model_calls w)) ps)) ->
  exists w',
    for_participants E sop out ps t w = (w', inl e)
    /\ model_calls w'
       = model_calls w ++ ((fun p => get_bpmn_prompt p sop) <$> take (S i) ps)
    /\ stores w'
       = stores w ++ ((fun pm => (bpmn_path out pm.1,
                                  csv_of (parse_markdown_table pm.2))) <$>
                      successes (take i (answers E sop (length (model_calls w)) ps)))
    /\ last (events w') = Some (ModelCall (get_bpmn_prompt p sop)).
Proof.
  intros Hi Hok. rewrite answers_take in Hok |- *.
  apply answers_lookup in Hi as [Hp He].
  destruct (for_participants_normal E sop out (take i ps) t w Hok)
    as (w1 & Hrun & Hcalls & Hstores & _).
  assert (Hsplit : for_participants E sop out ps t w
                   = for_participants E sop out
                       (take i ps ++ p :: drop (S i) ps) t w)
    by (by rewrite take_drop_middle).
  rewrite Hsplit.
  rewrite (for_participants_app E _ _ _ _ _ _ _ _ Hrun).
  rewrite for_participants_cons. cbn zeta.
  assert (Hlen : length (model_calls w1) = (length (model_calls w) + i)%nat).
  { rewrite Hcalls, length_app, length_fmap, length_take.
    apply lookup_lt_Some in Hp. lia. }
  rewrite Hlen, <- He.
  eexists. split; [done|].
  unfold model_calls at 1, stores at 1. cbn [events].
  rewrite !omap_app. cbn [omap list_omap]. fold (model_calls w1). fold (stores w1).
  rewrite Hcalls, Hstores, app_nil_r.
  split; [|split; [done|by rewrite last_app]].
  rewrite <- app_assoc. f_equal.
  rewrite (take_S_r ps i p Hp), fmap_app. done.
Qed.

End LoopRaises.

Section PartialFailure.
Context `{UnicodeData} (E : env).

(** C1 (as amended). Three participants.  When the model answers every
    call, exactly one of the three replies parses to no record, and the
    files of the two others can be written (no key outside the seven
    headers), the loop runs to its end: all three participants are
    prompted, exactly two files are stored, the dictionary kept for the
    message flows holds only replies that parse to records, so not the
    failing one, and the message-flow stage is run on that dictionary.
    When instead the call for a participant raises, the turns before
    having run to their end, the error is not caught: the run ends with it
    right after that call, with the files of the turns before stored, no
    later participant prompted and no message-flow stage. *)
Theorem one_unparsable_reply_of_three (pdf_path output_dir : str)
    (fs : gmap str csv_file) (pages : list (option str)) (resp p1 p2 p3 : str) :
  pdf_pages E pdf_path = inr pages ->
  strip (full_text pages) <> [] ->
  gpt E 0 (get_participants_prompt (full_text pages)) = inr resp ->
  parse_numbered_list (strip resp) = [p1; p2; p3] ->
  (Forall (turn_ok E output_dir) (answers E (full_text pages) 1 [p1; p2; p3]) ->
   length (successes (answers E (full_text pages) 1 [p1; p2; p3])) = 2%nat ->
   exists w2,
     let won := successes (answers E (full_text pages) 1 [p1; p2; p3]) in
     let bpmn_tables := dict_of won in
     main E pdf_path output_dir (start fs)
       = (message_flows E output_dir bpmn_tables >> print MsgAllDone) w2
     /\ model_calls w2
        = get_participants_prompt (full_text pages)
          :: ((fun p => get_bpmn_prompt p (full_text pages)) <$> [p1; p2; p3])
     /\ stores w2
        = (fun pm => (bpmn_path output_dir pm.1, csv_of (parse_markdown_table pm.2)))
          <$> won
     /\ length (stores w2) = 2%nat
     /\ bpmn_tables <> []
     /\ (forall p md, (p, md) ∈ bpmn_tables ->
           (p, md) ∈ won /\ parse_markdown_table md <> [])
     /\ (forall p reply,
           (p, inr reply) ∈ answers E (full_text pages) 1 [p1; p2; p3] ->
           parse_markdown_table (strip reply) = [] ->
           strip reply ∉ bpmn_tables.*2)
     /\ model_calls
          ((message_flows E output_dir bpmn_tables >> print MsgAllDone) w2).1
        = model_calls w2 ++ [get_message_flows_prompt bpmn_tables])
  /\
  (forall (i : nat) (p : str) (e : exn),
     answers E (full_text pages) 1 [p1; p2; p3] !! i = Some (p, inl e) ->
     Forall (turn_ok E output_dir)
            (take i (answers E (full_text pages) 1 [p1; p2; p3])) ->
     (main E pdf_path output_dir (start fs)).2 = inl e
     /\ model_calls (main E pdf_path output_dir (start fs)).1
        = get_participants_prompt (full_text pages)
          :: ((fun p => get_bpmn_prompt p (full_text pages))
                <$> take (S i) [p1; p2; p3])
     /\ stores (main E pdf_path output_dir (start fs)).1
        = (fun pm => (bpmn_path output_dir pm.1, csv_of (parse_markdown_table pm.2)))
          <$> successes (take i (answers E (full_text pages) 1 [p1; p2; p3]))
     /\ last (events (main E pdf_path output_dir (start fs)).1)
        = Some (ModelCall (get_bpmn_prompt p (full_text pages)))).
Proof.
  intros Hpages Htext Hresp Hps.
  rewrite (main_stage2 E _ _ _ _ _ _ _ Hpages Htext Hresp Hps).
  split.
  - intros Hok Htwo.
    destruct (for_participants_normal E (full_text pages) output_dir [p1; p2; p3] []
                (after_stage1 pdf_path (full_text pages) [p1; p2; p3] fs) Hok)
      as (w2 & Hrun & Hcalls & Hstores & _).
    change (length (model_calls (after_stage1 pdf_path (full_text pages)
                                   [p1; p2; p3] fs))) with 1%nat in *.
    exists w2. cbn zeta.
    set (won := successes (answers E (full_text pages) 1 [p1; p2; p3])) in *.
    set (bpmn_tables := dict_of won).
    assert (Hin : forall p md, (p, md) ∈ bpmn_tables -> (p, md) ∈ won).
    { intros p md [Hnil|Hin]%retained_elem; [by apply elem_of_nil in Hnil|done]. }
    assert (Hne : bpmn_tables <> []).
    { subst bpmn_tables. clearbody won.
      destruct won as [|[p md] won']; [done|]. intros Hnil.
      pose proof (retained_get ((p, md) :: won') [] p) as Hget.
      unfold dict_of in Hnil. rewrite Hnil in Hget.
      rewrite filter_cons, decide_True, last_cons in Hget by done.
      by destruct (last (filter _ won')). }
    unfold bind at 1. rewrite Hrun. split; [done|].
    split; [exact Hcalls|]. split; [exact Hstores|].
    split; [rewrite Hstores, length_app, length_fmap; exact Htwo|].
    split; [exact Hne|].
    split; [intros p md Hel; split; [by apply Hin|];
            by eapply successes_parsed, Hin|].
    split; [|by apply message_flows_calls].
    intros p reply _ Hparse ([p' md] & Hmd & Hel)%list_elem_of_fmap.
    cbn [snd] in Hmd. subst md.
    by apply Hin, successes_parsed in Hel.
  - intros i p e Hi Hok.
    destruct (for_participants_raises E (full_text pages) output_dir
                [p1; p2; p3] []
                (after_stage1 pdf_path (full_text pages) [p1; p2; p3] fs)
                i p e Hi Hok)
      as (w' & Hrun & Hcalls & Hstores & Hlast).
    match goal with
    | |- context [bind ?m ?k ?w0] =>
      assert (Hmain : bind m k w0 = (w', inl e))
        by (unfold bind at 1; by rewrite Hrun)
    end.
    rewrite Hmain. cbn [fst snd].
    by rewrite Hcalls, Hstores, Hlast.
Qed.

End PartialFailure.

Lemma one_unparsable_reply_of_three_witness :
  (exists w2,
    @main ascii_only (stage2_env (inr (u "I have no table for Bob.")))
      (u "sop.pdf") (u "out") (start ∅)
      = (message_flows (stage2_env (inr (u "I have no table for Bob.")))
           (u "out")
           [ (u "Alice", task_table (u "Review"));
             (u "Carol", task_table (u "File")) ]
         >> print MsgAllDone) w2
    /\ (stores w2).*1 = [u "out/Alice_bpmn.csv"; u "out/Carol_bpmn.csv"])
  /\ (@main ascii_only (stage2_env (inl RemoteCallError)) (u "sop.pdf") (u "out")
        (start ∅)).2 = inl RemoteCallError
  /\ model_calls (@main ascii_only (stage2_env (inl RemoteCallError))
                    (u "sop.pdf") (u "out") (start ∅)).1
     = [ get_participants_prompt (full_text sample_pages);
         get_bpmn_prompt (u "Alice") (full_text sample_pages);
         get_bpmn_prompt (u "Bob") (full_text sample_pages) ].
Proof.
  split.
  - destruct (@one_unparsable_reply_of_three ascii_only
                (stage2_env (inr (u "I have no table for Bob.")))
                (u "sop.pdf") (u "out") ∅ sample_pages three_names
                (u "Alice") (u "Bob") (u "Carol"))
      as [Hpart _].
    + reflexivity.
    + vm_compute. congruence.
    + reflexivity.
    + vm_compute. reflexivity.
    + destruct Hpart as (w2 & Hmain & _ & Hstores & _).
      * apply Forall_cons; split; [|apply Forall_cons; split;
            [|apply Forall_cons; split; [|by apply Forall_nil]]]; hnf.
        -- right. split; [reflexivity|].
           apply (bool_decide_unpack (Forall _ _)). vm_compute. exact I.
        -- left. vm_compute. reflexivity.
        -- right. split; [reflexivity|].
           apply (bool_decide_unpack (Forall _ _)). vm_compute. exact I.
      * vm_compute. reflexivity.
      * exists w2. split.
        -- rewrite Hmain. reflexivity.
        -- rewrite Hstores. vm_compute. reflexivity.
  - destruct (@one_unparsable_reply_of_three ascii_only
                (stage2_env (inl RemoteCallError))
                (u "sop.pdf") (u "out") ∅ sample_pages three_names
                (u "Alice") (u "Bob") (u "Carol"))
      as [_ Hraise].
    + reflexivity.
    + vm_compute. congruence.
    + reflexivity.
    + vm_compute. reflexivity.
    + destruct (Hraise 1%nat (u "Bob") RemoteCallError)
        as (Hres & Hcalls & _).
      * reflexivity.
      * apply Forall_cons; split; [|by apply Forall_nil]. hnf.
        right. split; [reflexivity|].
        apply (bool_decide_unpack (Forall _ _)). vm_compute. exact I.
      * split; [exact Hres|]. rewrite Hcalls. reflexivity.
Defined.

Lemma remote_call_error_counterexample :
  (@main ascii_only (stage2_env (inl RemoteCallError)) (u "sop.pdf") (u "out")
     (start ∅)).2 = inl RemoteCallError
  /\ (stores (@main ascii_only (stage2_env (inl RemoteCallError)) (u "sop.pdf")
                (u "out") (start ∅)).1).*1 = [u "out/Alice_bpmn.csv"]
  /\ model_calls (@main ascii_only (stage2_env (inl RemoteCallError)) (u "sop.pdf")
                    (u "out") (start ∅)).1
     = [ get_participants_prompt (full_text sample_pages);
         get_bpmn_prompt (u "Alice") (full_text sample_pages);
         get_bpmn_prompt (u "Bob") (full_text sample_pages) ].
Proof. vm_compute. repeat split; reflexivity. Qed.

Section DuplicateLabels.
Context `{UnicodeData} (E : env).


End DuplicateLabels.


(* ===================================================================== *)
(** * Further properties of the program *)
(* ===================================================================== *)

(** ** More on trimming *)

Lemma rstrip_of_take P s :
  rstrip_of P s = take (length s - Re.run_length P (reverse s)) s.
Proof.
  unfold rstrip_of. rewrite lstrip_of_drop, reverse_drop.
  by rewrite length_reverse, reverse_involutive.
Qed.

Lemma strip_of_sublist P s : strip_of P s `sublist_of` s.
Proof.
  unfold strip_of. rewrite rstrip_of_take, lstrip_of_drop.
  etrans; [apply sublist_take|apply sublist_drop].
Qed.

Lemma strip_of_Forall (Q : char -> Prop) P s :
  Forall Q s -> Forall Q (strip_of P s).
Proof.
  intros Hs. apply Forall_forall. intros c Hc.
  eapply Forall_forall in Hs; [exact Hs|].
  eapply elem_of_sublist; [exact Hc|apply strip_of_sublist].
Qed.

Lemma strip_of_idem P s : strip_of P (strip_of P s) = strip_of P s.
Proof.
  apply strip_of_fixed.
  - intros c Hc. unfold strip_of in Hc. rewrite rstrip_of_take in Hc.
    apply (lstrip_of_head P s).
    destruct (lstrip_of P s) as [|c' t]; [by rewrite take_nil in Hc|].
    destruct (length (c' :: t) - Re.run_length P (reverse (c' :: t)))%nat;
      simpl in Hc; [done|]. done.
  - intros c. unfold strip_of, rstrip_of. rewrite last_reverse.
    apply lstrip_of_head.
Qed.

Lemma lstrip_of_nil P s : lstrip_of P s = [] <-> all P s.
Proof.
  induction s as [|c s IH]; simpl.
  - split; [constructor|done].
  - destruct (P c) eqn:Hc.
    + rewrite IH. split; [by constructor|by intros [_ ?]%Forall_cons].
    + split; [done|]. intros [Hc' _]%Forall_cons. congruence.
Qed.

Lemma strip_of_nil P s : strip_of P s = [] <-> all P s.
Proof.
  unfold strip_of, rstrip_of. split.
  - intros Hs. apply (f_equal reverse) in Hs. rewrite reverse_involutive in Hs.
    change (reverse []) with (@nil char) in Hs. apply lstrip_of_nil in Hs.
    apply Forall_reverse in Hs.
    rewrite (run_split P s). apply Forall_app. split; [apply run_length_all|].
    by rewrite reverse_involutive in Hs.
  - intros Hs. apply lstrip_of_nil in Hs. by rewrite Hs.
Qed.

(** ** The text of a document *)

Lemma full_text_loop (pages : list (option str)) (acc : list str) :
  fold_left
    (fun full_text txt =>
       match txt with
       | Some (c :: t) => full_text ++ [c :: t]
       | _ => full_text
       end)
    pages acc
  = acc ++ omap (fun txt => match txt with
                            | Some (c :: t) => Some (c :: t)
                            | _ => None
                            end) pages.
Proof.
  revert acc. induction pages as [|txt pages IH]; intros acc; simpl.
  - by rewrite app_nil_r.
  - rewrite IH. destruct txt as [[|c t]|]; simpl; by rewrite <- ?app_assoc.
Qed.

Lemma join_all P sep parts :
  all P sep -> all P (join sep parts) <-> Forall (all P) parts.
Proof.
  intros Hsep. induction parts as [|p parts IH].
  - split; constructor.
  - destruct parts as [|p' parts'].
    + simpl. split; [by repeat constructor|by intros [? _]%Forall_cons].
    + change (join sep (p :: p' :: parts')) with (p ++ sep ++ join sep (p' :: parts')).
      unfold all at 1. rewrite !Forall_app, Forall_cons. unfold all in IH. rewrite IH.
      tauto.
Qed.

(** X1. The text of a document is blank (empty once trimmed) exactly when
    every page is without text or has only white space: pages without text
    are left out and the others are joined by line feeds, which are white
    space themselves. *)
Theorem full_text_blank (pages : list (option str)) :
  strip (full_text pages) = [] <->
  Forall (fun txt => match txt with
                     | Some t => all isspace t
                     | None => True
                     end) pages.
Proof.
  unfold strip. rewrite strip_of_nil. unfold full_text.
  rewrite full_text_loop. cbn [app].
  rewrite join_all by (by repeat constructor).
  induction pages as [|txt pages IH]; [split; constructor|].
  cbn [omap list_omap]. cbn [omap] in IH.
  destruct txt as [[|c t]|].
  - rewrite Forall_cons, IH. split; [intros ?; split; [constructor|done]|by intros [_ ?]].
  - by rewrite !Forall_cons, IH.
  - rewrite Forall_cons, IH. split; [done|by intros [_ ?]].
Qed.

(** ** One call of the model *)

Section CallGpt.
Context (E : env).

(** X2. A call of the model adds one event, the call itself, whether it
    returns or raises, and leaves the files alone.  An error of the client
    is not caught.  The text returned is the reply trimmed: it neither
    starts nor ends with white space, trimming it again changes nothing, and
    it is empty exactly when the reply has only white space. *)
Theorem call_gpt_trimmed (messages : conversation) (w : world) :
  events (call_gpt E messages w).1 = events w ++ [ModelCall messages]
  /\ files (call_gpt E messages w).1 = files w
  /\ (forall e,
        gpt E (length (model_calls w)) messages = inl e ->
        (call_gpt E messages w).2 = inl e)
  /\ (forall md,
        (call_gpt E messages w).2 = inr md ->
        (exists reply,
           gpt E (length (model_calls w)) messages = inr reply /\
           md = strip reply /\
           (md = [] <-> all isspace reply))
        /\ strip md = md
        /\ (forall c, head md = Some c -> isspace c = false)
        /\ (forall c, last md = Some c -> isspace c = false)).
Proof.
  unfold call_gpt.
  destruct (gpt E (length (model_calls w)) messages) as [e|reply];
    cbn [fst snd files events]; (split; [done|]); (split; [done|]).
  - split; [by intros ? [= <-]|done].
  - split; [done|]. intros md [= <-].
    split; [exists reply; repeat split; try done; apply strip_of_nil|].
    split; [apply strip_of_idem|].
    apply strip_of_fixed_inv, strip_of_idem.
Qed.

End CallGpt.

(** ** Cells of the parsed records *)

Lemma split_on_pieces sep s piece :
  piece ∈ split_on sep s -> (sep ∉ piece) /\ forall c, c ∈ piece -> c ∈ s.
Proof.
  revert piece. induction s as [|c s IH]; intros piece; simpl.
  - intros ->%list_elem_of_singleton. split; [apply not_elem_of_nil|done].
  - destruct (N.eqb_spec c sep) as [->|Hne].
    + intros [->|Hin]%elem_of_cons.
      * split; [apply not_elem_of_nil|by intros ? ?%elem_of_nil].
      * destruct (IH _ Hin) as [Hsep Hsub]. split; [done|].
        intros c' Hc'. by apply list_elem_of_further, Hsub.
    + destruct (split_on sep s) as [|p ps] eqn:Hsplit.
      * intros ->%list_elem_of_singleton. split.
        -- by intros ->%list_elem_of_singleton.
        -- intros c' ->%list_elem_of_singleton. apply list_elem_of_here.
      * intros [->|Hin]%elem_of_cons.
        -- destruct (IH p) as [Hsep Hsub]; [apply list_elem_of_here|]. split.
           ++ intros [->|?]%elem_of_cons; done.
           ++ intros c' [->|Hc']%elem_of_cons;
                [apply list_elem_of_here|by apply list_elem_of_further, Hsub].
        -- destruct (IH piece) as [Hsep Hsub]; [by apply list_elem_of_further|].
           split; [done|]. intros c' Hc'. by apply list_elem_of_further, Hsub.
Qed.

Lemma strip_of_elem P s c : c ∈ strip_of P s -> c ∈ s.
Proof. intros Hc. eapply elem_of_sublist; [exact Hc|apply strip_of_sublist]. Qed.

Lemma row_cells_clean line cell :
  no_linebreak line -> cell ∈ row_cells line ->
  strip cell = cell /\ (PIPE ∉ cell) /\ no_linebreak cell.
Proof.
  intros Hline (piece & -> & Hpiece)%list_elem_of_fmap.
  destruct (split_on_pieces _ _ _ Hpiece) as [Hpipe Hsub].
  split; [apply strip_of_idem|]. split.
  - intros Hin. by apply strip_of_elem in Hin.
  - apply Forall_forall. intros c Hc. apply strip_of_elem, Hsub, strip_of_elem in Hc.
    by eapply Forall_forall in Hline.
Qed.

Lemma table_lines_no_linebreak md : Forall no_linebreak (table_lines md).
Proof.
  unfold table_lines. apply Forall_fmap, Forall_forall.
  intros l [_ Hl]%list_elem_of_filter. apply strip_of_Forall.
  pose proof (splitlines_no_linebreak md) as Hall.
  by eapply Forall_forall in Hall.
Qed.

Lemma zip_elem {A B} (a : list A) (b : list B) x y :
  (x, y) ∈ zip a b -> x ∈ a /\ y ∈ b.
Proof.
  revert b. induction a as [|x' a IH]; intros [|y' b]; simpl;
    try (by intros ?%elem_of_nil).
  intros [[= -> ->]|Hin]%elem_of_cons.
  - split; apply list_elem_of_here.
  - destruct (IH _ Hin). split; by apply list_elem_of_further.
Qed.

(** X3. In every record the parser returns, no key is repeated, and every
    name and every cell is trimmed and holds neither a pipe nor a line
    boundary. *)
Theorem parsed_cells_clean (md : str) (r : record) :
  r ∈ parse_markdown_table md ->
  NoDup (dict_keys r) /\
  forall k v, (k, v) ∈ r ->
    (strip k = k /\ (PIPE ∉ k) /\ no_linebreak k) /\
    (strip v = v /\ (PIPE ∉ v) /\ no_linebreak v).
Proof.
  intros Hr.
  destruct (table_lines md) as [|h [|sep body]] eqn:Hlines;
    try (unfold parse_markdown_table in Hr; rewrite Hlines in Hr;
         by apply elem_of_nil in Hr).
  rewrite (parse_markdown_table_rows _ _ _ _ Hlines) in Hr.
  apply list_elem_of_fmap in Hr as (row & -> & [_ Hrow]%list_elem_of_filter).
  pose proof (table_lines_no_linebreak md) as Hall. rewrite Hlines in Hall.
  apply Forall_cons in Hall as [Hh [_ Hbody]%Forall_cons].
  split; [apply retained_NoDup, NoDup_nil_2|].
  intros k v [Hnil|[Hk Hv]%zip_elem]%retained_elem;
    [by apply elem_of_nil in Hnil|].
  split; [by apply (row_cells_clean h)|].
  apply (row_cells_clean row); [|done]. by eapply Forall_forall in Hbody.
Qed.

Lemma parsed_cells_clean_witness :
  [(u "a", u "b c")] ∈ parse_markdown_table (u " |  a |" ++ nl ++ u "|-|" ++ nl
                                             ++ u "| b c  | ") /\
  strip (u "b c") = u "b c".
Proof.
  assert (Hin : [(u "a", u "b c")]
                  ∈ parse_markdown_table (u " |  a |" ++ nl ++ u "|-|" ++ nl
                                          ++ u "| b c  | "))
    by (vm_compute; apply list_elem_of_here).
  split; [exact Hin|].
  destruct (parsed_cells_clean _ _ Hin) as [_ Hclean].
  destruct (Hclean (u "a") (u "b c")) as [_ [Hs _]];
    [apply list_elem_of_here|exact Hs].
Defined.

(** ** Lines around a table *)

Lemma splitlines_join_tail (ls : list str) :
  Forall no_linebreak ls ->
  exists tl, (tl = [] \/ tl = [[]]) /\ ls = splitlines (join nl ls) ++ tl.
Proof.
  induction 1 as [|l ls Hl Hls IH]; [by exists []; split; [left|]|].
  destruct ls as [|l' ls'].
  - destruct l as [|c l].
    + exists [[]]. split; [by right|done].
    + exists []. split; [by left|]. cbn [join].
      by rewrite splitlines_single, app_nil_r.
  - destruct IH as (tl & Htl & Heq). exists tl. split; [done|].
    change (join nl (l :: l' :: ls')) with (l ++ LF :: join nl (l' :: ls')).
    rewrite splitlines_line by done. cbn [app]. by rewrite <- Heq.
Qed.

Lemma table_lines_join (ls : list str) :
  Forall no_linebreak ls ->
  table_lines (join nl ls)
    = strip <$> filter (fun l => startswith_pipe (strip l) = true) ls.
Proof.
  intros Hls. destruct (splitlines_join_tail ls Hls) as (tl & Htl & Heq).
  unfold table_lines. rewrite Heq at 2. rewrite filter_app.
  destruct Htl as [-> | ->]; by rewrite app_nil_r.
Qed.

Lemma filter_twice {A} (P : A -> Prop) `{!forall x, Decision (P x)} (l : list A) :
  filter P (filter P l) = filter P l.
Proof.
  induction l as [|x l IH]; [done|]. rewrite filter_cons.
  destruct (decide (P x)); [|done]. by rewrite filter_cons, decide_True, IH.
Qed.

(** X4. Lines that do not start with a pipe (once trimmed) play no part,
    wherever they stand: a text given line by line parses to the same
    records as the text of its qualifying lines alone. *)
Theorem parse_markdown_table_ignores_other_lines (ls : list str) :
  Forall no_linebreak ls ->
  parse_markdown_table (join nl ls)
    = parse_markdown_table
        (join nl (filter (fun l => startswith_pipe (strip l) = true) ls)).
Proof.
  intros Hls. unfold parse_markdown_table.
  rewrite !table_lines_join, filter_twice; [done| |done].
  apply Forall_forall. intros l [_ Hl]%list_elem_of_filter.
  by eapply Forall_forall in Hls.
Qed.

Lemma parse_markdown_table_ignores_other_lines_witness :
  parse_markdown_table
    (join nl [u "Here is the table:"; []; u "| a |"; u "(header above)";
              u "|---|"; u "  | 1 |"; u "Done."; []])
  = [[(u "a", u "1")]].
Proof.
  rewrite parse_markdown_table_ignores_other_lines.
  - vm_compute. reflexivity.
  - apply (bool_decide_unpack
             (Forall (Forall (fun c => islinebreak c = false)) _)).
    vm_compute. exact I.
Defined.

(** ** More on lines and numbered lists *)

Lemma splitlines_Forall (Q : char -> Prop) s :
  Forall Q s -> Forall (Forall Q) (splitlines s).
Proof.
  remember (length s) as n eqn:Hn. revert s Hn.
  induction n as [n IH] using lt_wf_ind. intros s -> Hs.
  destruct s as [|c s]; simpl; [constructor|].
  apply Forall_cons in Hs as [Hc Hs].
  destruct (islinebreak c).
  - constructor; [constructor|]. destruct s as [|c' s']; [constructor|].
    destruct ((c =? CR) && (c' =? LF)).
    + apply Forall_cons in Hs as [_ Hs]. eapply IH; [|done|done]. simpl. lia.
    + eapply IH; [|done|done]. simpl. lia.
  - assert (Hrec : Forall (Forall Q) (splitlines s))
      by (eapply IH; [|done|done]; simpl; lia).
    destruct Hrec as [|line lines Hline Hlines]; repeat constructor; done.
Qed.

Lemma splitlines_nil s : splitlines s = [] -> s = [].
Proof.
  destruct s as [|c s]; [done|]. simpl.
  destruct (islinebreak c); [done|]. by destruct (splitlines s).
Qed.

Lemma splitlines_app_LF a b :
  exists blank,
    (blank = [] \/ blank = [[]]) /\
    splitlines (a ++ LF :: b) = splitlines a ++ blank ++ splitlines b.
Proof.
  remember (length a) as n eqn:Hn. revert a Hn.
  induction n as [n IH] using lt_wf_ind. intros a ->.
  destruct a as [|c a].
  - exists [[]]. split; [by right|].
    cbn [app splitlines]. change (islinebreak LF) with true. cbn match.
    change (LF =? CR) with false. by destruct b.
  - cbn [app splitlines]. destruct (islinebreak c) eqn:Hc.
    + destruct a as [|c' a'].
      * cbn [app]. destruct (N.eqb_spec c CR) as [->|Hne].
        -- exists []. split; [by left|]. by rewrite N.eqb_refl.
        -- exists [[]]. split; [by right|]. cbn [andb app splitlines].
           change (islinebreak LF) with true. cbn match.
           change (LF =? CR) with false. by destruct b.
      * cbn [app]. destruct ((c =? CR) && (c' =? LF)).
        -- destruct (IH (length a') ltac:(simpl; lia) a' eq_refl)
             as (blank & Hblank & ->). by exists blank.
        -- destruct (IH (length (c' :: a')) ltac:(simpl; lia) (c' :: a') eq_refl)
             as (blank & Hblank & Heq).
           cbn [app] in Heq. rewrite Heq. by exists blank.
    + destruct a as [|c' a'].
      * exists []. split; [by left|]. cbn [app splitlines].
        change (islinebreak LF) with true. cbn match.
        change (LF =? CR) with false. by destruct b.
      * destruct (IH (length (c' :: a')) ltac:(simpl; lia) (c' :: a') eq_refl)
          as (blank & Hblank & Heq).
        cbn [app] in Heq. cbn [app]. rewrite Heq. exists blank. split; [done|].
        destruct (splitlines (c' :: a')) as [|line lines] eqn:Hsp;
          [by apply splitlines_nil in Hsp|done].
Qed.

Section NumberedMore.
Context `{UnicodeData}.

Lemma numbered_suffix line label :
  numbered line label -> exists before, line = before ++ label /\ before <> [].
Proof.
  intros (ws & rest & -> & _ & idx & dot & sp & -> & Hidx & _).
  exists (ws ++ idx ++ dot ++ sp). split; [by rewrite <- !app_assoc|].
  destruct ws, idx; done.
Qed.

Lemma numbered_digit line label :
  numbered line label -> exists c, c ∈ line /\ isdecimal c = true.
Proof.
  intros (ws & rest & -> & _ & idx & dot & sp & -> & Hidx & Hdec & _).
  destruct Hdec as [|c idx Hc _]; [done|]. exists c. split; [|done].
  rewrite elem_of_app. right. apply list_elem_of_here.
Qed.

(** X5. Every label of the list is trimmed and holds no line boundary, and
    there are at most as many labels as the text has lines. *)
Theorem parse_numbered_list_clean (text : str) :
  Forall (fun label => strip label = label /\ no_linebreak label)
         (parse_numbered_list text)
  /\ (length (parse_numbered_list text) <= length (splitlines text))%nat.
Proof.
  unfold parse_numbered_list. rewrite numbered_list_loop. cbn [app].
  pose proof (splitlines_no_linebreak text) as Hlines.
  induction Hlines as [|line lines Hline _ [IH1 IH2]]; [split; [constructor|done]|].
  cbn [fmap list_fmap concat length]. cbn [fmap] in IH1, IH2.
  pose proof (match_numbered line (no_linebreak_LF _ Hline)) as Hm.
  destruct (Re.match_items numbered_item line) as [[label|]|];
    [|done|split; [done|cbn [app]; lia]].
  split; [|cbn [app length]; lia].
  cbn [app]. constructor; [|done]. split; [apply strip_of_idem|].
  apply strip_of_Forall.
  destruct (numbered_suffix _ _ Hm) as (before & -> & _).
  by apply Forall_app in Hline as [_ ?].
Qed.

(** X6. A text without any decimal digit yields no label. *)
Theorem parse_numbered_list_no_digit (text : str) :
  Forall (fun c => isdecimal c = false) text ->
  parse_numbered_list text = [].
Proof.
  intros Htext. unfold parse_numbered_list. rewrite numbered_list_loop. cbn [app].
  pose proof (splitlines_no_linebreak text) as Hlines.
  pose proof (splitlines_Forall _ _ Htext) as Hdigits.
  induction Hlines as [|line lines Hline _ IH]; [done|].
  apply Forall_cons in Hdigits as [Hd Hdigits].
  cbn [fmap list_fmap concat]. cbn [fmap] in IH. rewrite IH by done.
  pose proof (match_numbered line (no_linebreak_LF _ Hline)) as Hm.
  destruct (Re.match_items numbered_item line) as [[label|]|]; [|done|done].
  destruct (numbered_digit _ _ Hm) as (c & Hc & Hdec).
  eapply Forall_forall in Hd; [|exact Hc]. congruence.
Qed.

(** X7. Two texts put one after the other with a line feed between give the
    labels of the first followed by the labels of the second. *)
Theorem parse_numbered_list_app (a b : str) :
  parse_numbered_list (a ++ LF :: b)
    = parse_numbered_list a ++ parse_numbered_list b.
Proof.
  unfold parse_numbered_list. rewrite !numbered_list_loop. cbn [app].
  destruct (splitlines_app_LF a b) as (blank & Hblank & ->).
  rewrite !fmap_app, !concat_app.
  by destruct Hblank as [-> | ->].
Qed.

End NumberedMore.

Lemma parse_numbered_list_no_digit_witness :
  Forall (fun c => @isdecimal ascii_only c = false)
         (u "Alice" ++ nl ++ u ". Bob") /\
  @parse_numbered_list ascii_only (u "Alice" ++ nl ++ u ". Bob") = [].
Proof.
  assert (Hd : Forall (fun c => @isdecimal ascii_only c = false)
                      (u "Alice" ++ nl ++ u ". Bob")) by repeat constructor.
  split; [exact Hd|]. exact (@parse_numbered_list_no_digit ascii_only _ Hd).
Defined.

Lemma linebreak_space c : islinebreak c = true -> isspace c = true.
Proof.
  unfold islinebreak, isspace, between.
  rewrite !orb_true_iff, !andb_true_iff, !N.leb_le, !N.eqb_eq. lia.
Qed.

Section BlankLabel.
Context `{UnicodeData}.

(** X8. A line that has, after its index and dot, nothing but white space,
    and at least two characters of it, is not ignored: it yields the empty
    label. *)
Theorem parse_numbered_list_blank_label (idx sp : str) :
  (forall c, isdecimal c = true -> isspace c = false) ->
  idx <> [] -> all isdecimal idx ->
  all isspace sp -> no_linebreak sp -> (2 <= length sp)%nat ->
  parse_numbered_list (idx ++ DOT :: sp) = [[]].
Proof.
  intros Hdisj Hidx Hdec Hsp Hnl Hlen.
  assert (Hline : no_linebreak (idx ++ DOT :: sp)).
  { apply Forall_app. split; [|by constructor].
    eapply Forall_impl; [exact Hdec|]. intros c Hc. cbn beta.
    destruct (islinebreak c) eqn:Hlb; [|done].
    apply linebreak_space in Hlb. apply Hdisj in Hc. congruence. }
  unfold parse_numbered_list. rewrite numbered_list_loop. cbn [app].
  rewrite splitlines_single by (done || by destruct idx).
  cbn [fmap list_fmap concat]. rewrite app_nil_r.
  destruct sp as [|c sp _] using rev_ind; [simpl in Hlen; lia|].
  rewrite length_app in Hlen. simpl in Hlen.
  apply Forall_app in Hsp as [Hsp [Hc _]%Forall_cons].
  assert (Hn : numbered (idx ++ DOT :: sp ++ [c]) [c]).
  { exists [], (idx ++ DOT :: sp ++ [c]). split; [done|]. split; [constructor|].
    exists idx, [DOT], sp. repeat split; try done; [by right|].
    intros ->. simpl in Hlen. lia. }
  pose proof (match_numbered _ (no_linebreak_LF _ Hline)) as Hm.
  destruct (Re.match_items numbered_item (idx ++ DOT :: sp ++ [c]))
    as [[label|]|]; [|done|by destruct (Hm [c])].
  rewrite (numbered_after_index _ _ Hdisj Hm),
          <- (numbered_after_index _ _ Hdisj Hn).
  f_equal. apply strip_of_nil. by constructor.
Qed.

End BlankLabel.

Lemma parse_numbered_list_blank_label_witness :
  @parse_numbered_list ascii_only (u "12" ++ DOT :: u "   ") = [[]].
Proof.
  apply (@parse_numbered_list_blank_label ascii_only (u "12") (u "   ")).
  - exact ascii_decimal_not_space.
  - done.
  - by repeat constructor.
  - by repeat constructor.
  - by repeat constructor.
  - simpl. lia.
Defined.

(** ** More on sanitised names *)

Lemma sub_scan_clean P b s :
  P UNDERSCORE = false ->
  Forall (fun c => P c = false) (Re.sub_scan P [UNDERSCORE] b s).
Proof.
  intros Hu. revert b. induction s as [|c s IH]; intros b; simpl; [constructor|].
  destruct (P c) eqn:Hc.
  - destruct b; simpl; [apply IH|constructor; [done|apply IH]].
  - constructor; [done|apply IH].
Qed.

Lemma sub_scan_fixed P b s :
  Forall (fun c => P c = false) s -> Re.sub_scan P [UNDERSCORE] b s = s.
Proof.
  intros Hs. revert b. induction Hs as [|c s Hc _ IH]; intros b; simpl; [done|].
  by rewrite Hc, IH.
Qed.

Lemma sub_scan_length P b s :
  (length (Re.sub_scan P [UNDERSCORE] b s) <= length s)%nat.
Proof.
  revert b. induction s as [|c s IH]; intros b; simpl; [done|].
  destruct (P c).
  - destruct b; simpl; [specialize (IH true)|specialize (IH true)]; lia.
  - simpl. specialize (IH false). lia.
Qed.

Section SafeNameMore.
Context `{UnicodeData}.

(** X9. The sanitised name of a label has only word characters and hyphens,
    so no slash; it is no longer than the label; and sanitising it again
    changes nothing, so a label and its sanitised name share one file. *)
Theorem safe_name_clean (output_dir p : str) :
  Forall (fun c => isword c || (c =? HYPHEN) = true) (safe_name p)
  /\ (SLASH ∉ safe_name p ++ u "_bpmn.csv")
  /\ (length (safe_name p) <= length p)%nat
  /\ safe_name (safe_name p) = safe_name p
  /\ bpmn_path output_dir (safe_name p) = bpmn_path output_dir p.
Proof.
  assert (Hclean : Forall (fun c => unsafe c = false) (safe_name p))
    by (by apply sub_scan_clean).
  assert (Hidem : safe_name (safe_name p) = safe_name p)
    by (by apply sub_scan_fixed).
  split; [|split; [|split; [apply sub_scan_length|split; [done|]]]].
  - eapply Forall_impl; [exact Hclean|]. intros c Hc.
    by apply negb_false_iff in Hc.
  - rewrite not_elem_of_app. split.
    + intros Hin. eapply Forall_forall in Hclean; [|exact Hin].
      by rewrite unsafe_slash in Hclean.
    + apply (bool_decide_unpack (SLASH ∉ u "_bpmn.csv")). vm_compute. exact I.
  - unfold bpmn_path. by rewrite Hidem.
Qed.

End SafeNameMore.

(** ** Files as written *)

Lemma csv_line_zip (hs cells : list str) :
  NoDup hs -> length cells = length hs -> csv_line hs (zip hs cells) = cells.
Proof.
  intros Hnd Hlen. apply list_eq. intros j. unfold csv_line.
  rewrite list_lookup_fmap.
  destruct (hs !! j) as [h|] eqn:Hh; simpl.
  - destruct (lookup_lt_is_Some_2 cells j) as [c Hc].
    { rewrite Hlen. by eapply lookup_lt_Some. }
    by rewrite (dict_get_zip hs cells j h c Hnd Hh Hc), Hc.
  - symmetry. apply lookup_ge_None. rewrite Hlen. by apply lookup_ge_None.
Qed.

Section WriteCsv.
Context (E : env).

(** X10. When the file can be opened and no record has a key outside the
    headers, [write_csv] returns, and the file at the path is the header
    line followed by one line per record, in order, each with one cell per
    header: the value of the record under that name, or the empty text when
    the record has no such key.  When the file cannot be opened it raises
    and changes nothing. *)
Theorem write_csv_stores (rows : list record) (hs : list str) (out_path : str)
    (w : world) :
  (os_ok E out_path = true ->
   Forall (fun r => dict_keys r ⊆ hs) rows ->
   write_csv E rows hs out_path w
     = (World (events w ++ [Store out_path (hs :: (csv_line hs <$> rows))])
              (<[out_path := hs :: (csv_line hs <$> rows)]> (files w)),
        inr tt)
   /\ files (write_csv E rows hs out_path w).1 !! out_path
      = Some (hs :: (csv_line hs <$> rows))
   /\ Forall (fun line => length line = length hs) (hs :: (csv_line hs <$> rows))
   /\ forall i j r k,
        rows !! i = Some r -> hs !! j = Some k ->
        exists line,
          (hs :: (csv_line hs <$> rows)) !! S i = Some line /\
          line !! j = Some (default [] (dict_get k r)))
  /\ (os_ok E out_path = false ->
      write_csv E rows hs out_path w = (w, inl (SinkError out_path))).
Proof.
  split.
  - intros Hos Hrows.
    assert (Hrun : write_csv E rows hs out_path w
      = (World (events w ++ [Store out_path (hs :: (csv_line hs <$> rows))])
               (<[out_path := hs :: (csv_line hs <$> rows)]> (files w)),
         inr tt)).
    { unfold write_csv. rewrite Hos. by rewrite (writerows_ok _ _ _ Hrows). }
    split; [exact Hrun|]. rewrite Hrun. split; [apply lookup_insert_eq|].
    split.
    + constructor; [done|]. apply Forall_fmap, Forall_forall. intros r _.
      unfold csv_line. cbn. by rewrite length_fmap.
    + intros i j r k Hi Hj. exists (csv_line hs r). split.
      * change ((csv_line hs <$> rows) !! i = Some (csv_line hs r)).
        apply list_lookup_fmap_Some. by exists r.
      * unfold csv_line. by rewrite list_lookup_fmap, Hj.
  - intros Hos. unfold write_csv. by rewrite Hos.
Qed.

End WriteCsv.

Lemma write_csv_stores_witness :
  write_csv (sample_env []) [[(u "b", u "1")]] [u "a"; u "b"] (u "out/x.csv")
    (start ∅)
  = (World [Store (u "out/x.csv") [[u "a"; u "b"]; [[]; u "1"]]]
           (<[u "out/x.csv" := [[u "a"; u "b"]; [[]; u "1"]]]> ∅),
     inr tt).
Proof.
  refine (proj1 (proj1 (write_csv_stores (sample_env []) [[(u "b", u "1")]]
                          [u "a"; u "b"] (u "out/x.csv") (start ∅)) eq_refl _)).
  apply Forall_cons; split; [|by apply Forall_nil].
  intros k Hk. apply list_elem_of_singleton in Hk as ->.
  apply list_elem_of_further, list_elem_of_here.
Defined.

(** X11. For a reply whose header line gives exactly the seven names, the
    lines stored for its records are the header and, for every body row of
    seven cells in order, the trimmed cells of that row. *)
Theorem csv_of_parsed_table (md h sep : str) (body : list str) :
  table_lines md = h :: sep :: body ->
  row_cells h = headers ->
  csv_of (parse_markdown_table md)
    = headers :: (row_cells <$>
                  filter (fun row => length (row_cells row) = length headers) body).
Proof.
  intros Hlines Hh. rewrite (parse_markdown_table_rows _ _ _ _ Hlines), Hh.
  assert (Hnd : NoDup headers)
    by (apply (bool_decide_unpack (NoDup headers)); vm_compute; exact I).
  unfold csv_of. rewrite writerows_ok.
  - cbn [fst app]. f_equal. rewrite <- list_fmap_compose. clear Hlines.
    induction body as [|row body IH]; [done|].
    rewrite filter_cons. destruct (decide _) as [Hlen|]; [|exact IH].
    cbn [fmap list_fmap compose]. cbn [fmap] in IH. rewrite IH. f_equal.
    by rewrite dict_of_zip, csv_line_zip.
  - apply Forall_fmap, Forall_forall. intros row [Hlen _]%list_elem_of_filter.
    intros k Hk. apply (dict_of_keys (zip headers (row_cells row)) k) in Hk.
    by rewrite zip_keys in Hk.
Qed.

Lemma csv_of_parsed_table_witness :
  csv_of (parse_markdown_table
            (u "| Object Type | Object Name | Predecessor | Successor | Input Data | Output Data | Additional Information |"
             ++ nl ++ u "|-|-|-|-|-|-|-|" ++ nl
             ++ u "| Task | Review | Start | End | | Report | |" ++ nl
             ++ u "| Task | too short |"))
  = [headers; [u "Task"; u "Review"; u "Start"; u "End"; []; u "Report"; []]].
Proof.
  rewrite (csv_of_parsed_table _
             (u "| Object Type | Object Name | Predecessor | Successor | Input Data | Output Data | Additional Information |")
             (u "|-|-|-|-|-|-|-|")
             [u "| Task | Review | Start | End | | Report | |";
              u "| Task | too short |"]).
  - vm_compute. reflexivity.
  - vm_compute. reflexivity.
  - vm_compute. reflexivity.
Defined.

(** ** What a run may touch *)

Lemma confined_ret allowed {A} (a : A) : confined allowed (ret a).
Proof. intros w. split; [exists []; by rewrite app_nil_r|done]. Qed.

Lemma confined_raise allowed {A} (e : exn) : confined allowed (@raise A e).
Proof. intros w. split; [exists []; by rewrite app_nil_r|done]. Qed.

Lemma confined_print allowed (m : printed) : confined allowed (print m).
Proof. intros w. split; [by eexists|done]. Qed.

Lemma confined_bind allowed {A B} (m : M A) (k : A -> M B) :
  confined allowed m -> (forall a, confined allowed (k a)) ->
  confined allowed (bind m k).
Proof.
  intros Hm Hk w. unfold bind. destruct (Hm w) as [[es Hes] Hfs].
  destruct (m w) as [w1 [e|a]]; cbn [fst] in *.
  - split; [by exists es|done].
  - destruct (Hk a w1) as [[es' Hes'] Hfs']. split.
    + exists (es ++ es'). by rewrite Hes', Hes, app_assoc.
    + intros q Hq. by rewrite Hfs', Hfs.
Qed.

Section Confined.
Context `{UnicodeData} (E : env).

Lemma confined_call_gpt allowed messages : confined allowed (call_gpt E messages).
Proof.
  intros w. unfold call_gpt. destruct (gpt E _ _); (split; [by eexists|done]).
Qed.

Lemma confined_write_csv (allowed : str -> Prop) rows hs out_path :
  allowed out_path -> confined allowed (write_csv E rows hs out_path).
Proof.
  intros Hout w. unfold write_csv.
  destruct (os_ok E out_path).
  - destruct (writerows hs rows [hs]) as [f [e|]]; cbn [fst]; split;
      try (by eexists); intros q Hq; cbn [files];
      (rewrite lookup_insert_ne; [done|by intros ->]).
  - split; [exists []; by rewrite app_nil_r|done].
Qed.

Lemma confined_for_participants sop output_dir ps t :
  confined (artifact_path output_dir) (for_participants E sop output_dir ps t).
Proof.
  revert t. induction ps as [|p ps IH]; intros t; [apply confined_ret|].
  cbn [for_participants].
  apply confined_bind; [apply confined_print|intros _].
  apply confined_bind; [apply confined_call_gpt|intros md].
  destruct (parse_markdown_table md) as [|r rows].
  - apply confined_bind; [apply confined_print|intros _; apply IH].
  - apply confined_bind; [apply confined_write_csv; right; by exists p|intros _].
    apply confined_bind; [apply confined_print|intros _; apply IH].
Qed.

Lemma confined_message_flows output_dir t :
  confined (artifact_path output_dir) (message_flows E output_dir t).
Proof.
  unfold message_flows. destruct t as [|item t]; [apply confined_ret|].
  apply confined_bind; [apply confined_print|intros _].
  apply confined_bind; [apply confined_call_gpt|intros mf].
  destruct (parse_markdown_table mf) as [|r rows]; [apply confined_print|].
  apply confined_bind; [apply confined_write_csv; by left|intros _].
  apply confined_print.
Qed.

Lemma confined_main pdf_path output_dir :
  confined (artifact_path output_dir) (main E pdf_path output_dir).
Proof.
  unfold main, extract_text_from_pdf.
  apply confined_bind; [apply confined_print|intros _].
  apply confined_bind.
  { apply confined_bind; [|intros pages; apply confined_ret].
    unfold of_result. destruct (pdf_pages E pdf_path);
      [apply confined_raise|apply confined_ret]. }
  intros sop_text. destruct (strip sop_text); [apply confined_print|].
  apply confined_bind; [apply confined_print|intros _].
  apply confined_bind; [apply confined_call_gpt|intros resp].
  destruct (parse_numbered_list resp) as [|p ps].
  { apply confined_bind; [apply confined_print|intros _; apply confined_print]. }
  apply confined_bind; [apply confined_print|intros _].
  apply confined_bind; [apply confined_for_participants|intros t].
  apply confined_bind; [apply confined_message_flows|intros _].
  apply confined_print.
Qed.

(** X12. Whatever the collaborators do, a run only adds to what was printed,
    asked and stored before, and the only files that can differ afterwards
    are [message_flows.csv] and the participants' files under the output
    directory: every other file is as it was. *)
Theorem main_touches_only_artifacts (pdf_path output_dir : str) (w : world) :
  (exists es, events (main E pdf_path output_dir w).1 = events w ++ es)
  /\ forall q,
       q <> path_join output_dir (u "message_flows.csv") ->
       (forall p, q <> bpmn_path output_dir p) ->
       files (main E pdf_path output_dir w).1 !! q = files w !! q.
Proof.
  destruct (confined_main pdf_path output_dir w) as [Hgrow Hkeep].
  split; [exact Hgrow|]. intros q Hq Hp. apply Hkeep.
  intros [->|[p ->]]; [done|by apply (Hp p)].
Qed.

End Confined.

Lemma main_touches_only_artifacts_witness :
  files (@main ascii_only (stage2_env (inr notes_table)) (u "sop.pdf") (u "out")
           (start {[ u "out/readme.txt" := [[u "keep"]] ]})).1
    !! u "out/readme.txt"
  = Some [[u "keep"]].
Proof.
  refine (eq_trans
            (proj2 (@main_touches_only_artifacts ascii_only
                      (stage2_env (inr notes_table)) (u "sop.pdf") (u "out")
                      (start {[ u "out/readme.txt" := [[u "keep"]] ]}))
                   (u "out/readme.txt") _ _) _).
  - vm_compute. congruence.
  - intros p Heq. 
    assert (Hlast : last (u "out/readme.txt") = last (@bpmn_path ascii_only (u "out") p))
      by (by rewrite <- Heq).
    rewrite (@bpmn_path_join ascii_only (u "out") p 116) in Hlast by done.
    rewrite !app_assoc, last_app in Hlast. vm_compute in Hlast. congruence.
  - vm_compute. reflexivity.
Defined.

(** ** Early ends of a run *)

Section EarlyEnds.
Context `{UnicodeData} (E : env).

(** X13. When the PDF reader raises, the run ends with that error right
    after its first message: the model is not called and nothing is
    stored. *)
Theorem main_extraction_error (pdf_path output_dir : str)
    (fs : gmap str csv_file) (e : exn) :
  pdf_pages E pdf_path = inl e ->
  main E pdf_path output_dir (start fs)
    = (World [Print (MsgReading pdf_path)] fs, inl e).
Proof.
  intros Hpages. unfold main, extract_text_from_pdf, bind, print, emit, start,
    of_result. by rewrite Hpages.
Qed.

Lemma main_stage1 pdf_path output_dir fs pages :
  pdf_pages E pdf_path = inr pages ->
  strip (full_text pages) <> [] ->
  main E pdf_path output_dir (start fs)
    = (let* resp := call_gpt E (get_participants_prompt (full_text pages)) in
       let participants := parse_numbered_list resp in
       match participants with
       | [] => print MsgNoParticipants >> print (MsgRawResponse resp)
       | _ =>
         print (MsgFound participants) >>
         let* bpmn_tables :=
           for_participants E (full_text pages) output_dir participants [] in
         message_flows E output_dir bpmn_tables >> print MsgAllDone
       end)
        (World [Print (MsgReading pdf_path); Print MsgIdentifying] fs).
Proof.
  intros Hpages Htext. unfold main, extract_text_from_pdf.
  unfold bind at 1. unfold print at 1. unfold emit at 1. unfold start.
  cbn [events files app].
  unfold bind at 1. unfold bind at 1. rewrite Hpages. unfold of_result, ret.
  destruct (strip (full_text pages)) as [|c t] eqn:Hs; [done|].
  unfold bind at 1. unfold print at 1. unfold emit at 1. cbn [events files app].
  reflexivity.
Qed.

Lemma after_stage1_confined output_dir sop resp :
  confined (artifact_path output_dir)
    (let participants := parse_numbered_list resp in
     match participants with
     | [] => print MsgNoParticipants >> print (MsgRawResponse resp)
     | _ =>
       print (MsgFound participants) >>
       let* bpmn_tables := for_participants E sop output_dir participants [] in
       message_flows E output_dir bpmn_tables >> print MsgAllDone
     end).
Proof.
  cbn zeta. destruct (parse_numbered_list resp) as [|p ps].
  - apply confined_bind; [apply confined_print|intros _; apply confined_print].
  - apply confined_bind; [apply confined_print|intros _].
    apply confined_bind; [apply confined_for_participants|intros t].
    apply confined_bind; [apply confined_message_flows|intros _].
    apply confined_print.
Qed.

(** X14. For a document with text, the first call of the model carries the
    participants prompt on the whole text.  When that call raises, the run
    ends with its error; when its reply lists no participant, the run
    reports it with the raw reply and returns.  In both cases the model was
    called once and nothing is stored. *)
Theorem main_stage1_ends (pdf_path output_dir : str) (fs : gmap str csv_file)
    (pages : list (option str)) :
  pdf_pages E pdf_path = inr pages ->
  strip (full_text pages) <> [] ->
  (exists rest,
     model_calls (main E pdf_path output_dir (start fs)).1
       = get_participants_prompt (full_text pages) :: rest)
  /\ (forall e,
        gpt E 0 (get_participants_prompt (full_text pages)) = inl e ->
        main E pdf_path output_dir (start fs)
          = (World [ Print (MsgReading pdf_path); Print MsgIdentifying;
                     ModelCall (get_participants_prompt (full_text pages)) ] fs,
             inl e))
  /\ (forall resp,
        gpt E 0 (get_participants_prompt (full_text pages)) = inr resp ->
        parse_numbered_list (strip resp) = [] ->
        main E pdf_path output_dir (start fs)
          = (World [ Print (MsgReading pdf_path); Print MsgIdentifying;
                     ModelCall (get_participants_prompt (full_text pages));
                     Print MsgNoParticipants;
                     Print (MsgRawResponse (strip resp)) ] fs,
             inr tt)).
Proof.
  intros Hpages Htext. split; [|split].
  - rewrite (main_stage1 _ _ _ _ Hpages Htext). unfold bind at 1.
    unfold call_gpt at 1. cbn [events files app].
    destruct (gpt E _ _) as [e|resp]; [by eexists|].
    match goal with
    | |- context [model_calls (?k ?w0).1] =>
      destruct (after_stage1_confined output_dir (full_text pages) (strip resp) w0)
        as [[es Hes] _]
    end.
    cbn zeta in Hes. unfold model_calls. rewrite Hes. cbn [events].
    rewrite omap_app. by eexists.
  - intros e He. rewrite (main_stage1 _ _ _ _ Hpages Htext).
    unfold bind, call_gpt. cbn [events files app].
    change (length (model_calls _)) with 0%nat. by rewrite He.
  - intros resp Hresp Hnone. rewrite (main_stage1 _ _ _ _ Hpages Htext).
    unfold bind at 1. unfold call_gpt. cbn [events files app].
    change (length (model_calls _)) with 0%nat. by rewrite Hresp, Hnone.
Qed.

End EarlyEnds.

(** ** The message-flow stage *)

Section MessageFlows.
Context `{UnicodeData} (E : env).

Lemma message_flows_run output_dir item items w :
  message_flows E output_dir (item :: items) w =
    let prompt := get_message_flows_prompt (item :: items) in
    let out_msg := path_join output_dir (u "message_flows.csv") in
    match gpt E (length (model_calls w)) prompt with
    | inl e =>
      (World (events w ++ [Print MsgGeneratingFlows; ModelCall prompt]) (files w),
       inl e)
    | inr reply =>
      match parse_markdown_table (strip reply) with
      | [] =>
        (World (events w ++ [Print MsgGeneratingFlows; ModelCall prompt;
                             Print (MsgCouldNotParseFlows (strip reply))])
               (files w),
         inr tt)
      | r :: rows =>
        if os_ok E out_msg then
          match writerows mf_headers (r :: rows) [mf_headers] with
          | (f, Some e) =>
            (World (events w ++ [Print MsgGeneratingFlows; ModelCall prompt;
                                 Store out_msg f])
                   (<[out_msg := f]> (files w)),
             inl e)
          | (f, None) =>
            (World (events w ++ [Print MsgGeneratingFlows; ModelCall prompt;
                                 Store out_msg f;
                                 Print (MsgFlows (length (r :: rows)) out_msg)])
                   (<[out_msg := f]> (files w)),
             inr tt)
          end
        else
          (World (events w ++ [Print MsgGeneratingFlows; ModelCall prompt])
                 (files w),
           inl (SinkError out_msg))
      end
    end.
Proof.
  cbn zeta. unfold message_flows.
  unfold bind at 1. unfold print at 1. unfold emit at 1.
  unfold bind at 1. unfold call_gpt at 1. cbn [events files].
  replace (length (model_calls (World (events w ++ [Print MsgGeneratingFlows]) (files w))))
    with (length (model_calls w)).
  2:{ unfold model_calls. cbn [events]. rewrite omap_app. simpl.
      by rewrite app_nil_r. }
  rewrite <- !app_assoc. cbn [app].
  destruct (gpt E (length (model_calls w)) _) as [e|reply]; [done|].
  destruct (parse_markdown_table (strip reply)) as [|r rows].
  - unfold print, emit. cbn [events files]. by rewrite <- !app_assoc.
  - unfold bind at 1. unfold write_csv at 1. cbn [events files].
    destruct (os_ok E _); [|done].
    destruct (writerows mf_headers (r :: rows) [mf_headers]) as [f [e|]].
    + by rewrite <- !app_assoc.
    + unfold print, emit. cbn [events files]. by rewrite <- !app_assoc.
Qed.

(** X15. The message-flow stage.  With no table kept it does nothing: the
    model is not called.  Otherwise the model is called once with the prompt
    built from the kept tables; when the call raises the stage raises; when
    the reply parses to no record the stage reports it and returns with no
    file written; when it parses to records with no key outside the five
    headers and the file can be opened, [message_flows.csv] under the output
    directory holds the five headers and one line per record. *)
Theorem message_flows_outcomes (output_dir : str) (bpmn_tables : dict str)
    (w : world) :
  (bpmn_tables = [] -> message_flows E output_dir bpmn_tables w = (w, inr tt))
  /\ (bpmn_tables <> [] ->
      (forall e,
         gpt E (length (model_calls w)) (get_message_flows_prompt bpmn_tables)
           = inl e ->
         message_flows E output_dir bpmn_tables w
           = (World (events w ++ [ Print MsgGeneratingFlows;
                                   ModelCall (get_message_flows_prompt bpmn_tables) ])
                    (files w),
              inl e))
      /\ (forall reply,
            gpt E (length (model_calls w)) (get_message_flows_prompt bpmn_tables)
              = inr reply ->
            (parse_markdown_table (strip reply) = [] ->
             message_flows E output_dir bpmn_tables w
               = (World (events w ++ [ Print MsgGeneratingFlows;
                                       ModelCall (get_message_flows_prompt bpmn_tables);
                                       Print (MsgCouldNotParseFlows (strip reply)) ])
                        (files w),
                  inr tt))
            /\ (parse_markdown_table (strip reply) <> [] ->
                os_ok E (path_join output_dir (u "message_flows.csv")) = true ->
                Forall (fun r => dict_keys r ⊆ mf_headers)
                       (parse_markdown_table (strip reply)) ->
                (message_flows E output_dir bpmn_tables w).2 = inr tt /\
                stores (message_flows E output_dir bpmn_tables w).1
                  = stores w ++
                    [(path_join output_dir (u "message_flows.csv"),
                      mf_headers
                        :: (csv_line mf_headers
                              <$> parse_markdown_table (strip reply)))] /\
                files (message_flows E output_dir bpmn_tables w).1
                  = <[path_join output_dir (u "message_flows.csv") :=
                        mf_headers
                          :: (csv_line mf_headers
                                <$> parse_markdown_table (strip reply))]>
                      (files w)))).
Proof.
  split; [by intros ->|]. intros Hne.
  destruct bpmn_tables as [|item items]; [done|].
  rewrite message_flows_run. cbn zeta. split.
  - intros e ->. done.
  - intros reply ->. split.
    + intros ->. done.
    + intros Hrows Hos Hkeys.
      destruct (parse_markdown_table (strip reply)) as [|r rows]; [done|].
      rewrite Hos, (writerows_ok _ _ _ Hkeys). cbn [fst snd files app].
      split; [done|]. split; [|done].
      unfold stores. cbn [events]. by rewrite omap_app.
Qed.

End MessageFlows.

Lemma message_flows_outcomes_witness :
  (message_flows (sample_env [inr flows_table]) (u "out")
     [(u "Alice", task_table (u "Review"))] (start ∅)).2 = inr tt
  /\ files (message_flows (sample_env [inr flows_table]) (u "out")
              [(u "Alice", task_table (u "Review"))] (start ∅)).1
       !! u "out/message_flows.csv"
     = Some [mf_headers; [u "Order"; u "Send order"; []; []; []]].
Proof.
  destruct (proj2 (message_flows_outcomes (sample_env [inr flows_table]) (u "out")
                     [(u "Alice", task_table (u "Review"))] (start ∅)))
    as [_ Hreply]; [done|].
  destruct (Hreply flows_table eq_refl) as [_ Hrows].
  destruct Hrows as (Hret & _ & Hfiles).
  - vm_compute. congruence.
  - reflexivity.
  - apply (bool_decide_unpack (Forall _ _)). vm_compute. exact I.
  - split; [exact Hret|]. rewrite Hfiles. vm_compute. reflexivity.
Defined.

(** ** Runs that return *)

Section Returns.
Context `{UnicodeData} (E : env).

Lemma message_flows_returns output_dir tables w :
  (message_flows E output_dir tables w).2 = inr tt
  <-> flows_ok E output_dir (length (model_calls w)) tables.
Proof.
  destruct tables as [|item items]; [done|].
  rewrite message_flows_run. cbn zeta. unfold flows_ok.
  destruct (gpt E _ _) as [e|reply]; [done|].
  destruct (parse_markdown_table (strip reply)) as [|r rows] eqn:Hparse.
  - split; [by left|done].
  - destruct (os_ok E _).
    + destruct (writerows mf_headers (r :: rows) [mf_headers]) as [f [e|]] eqn:Hw.
      * split; [done|]. intros [?|[_ Hkeys]]; [done|].
        by rewrite (writerows_ok _ _ _ Hkeys) in Hw.
      * split; [|done]. intros _. right. split; [done|]. by eapply writerows_None.
    + split; [done|]. by intros [?|[? _]].
Qed.

Lemma bind_inr {A B} (m : M A) (k : A -> M B) w w' a :
  m w = (w', inr a) -> bind m k w = k a w'.
Proof. unfold bind. by intros ->. Qed.

Lemma bind_inl {A B} (m : M A) (k : A -> M B) w w' e :
  m w = (w', inl e) -> bind m k w = (w', inl e).
Proof. unfold bind. by intros ->. Qed.

Lemma bind_print_returns {A} (m : M A) (msg : printed) w :
  ((m >> print msg) w).2 = inr tt <-> exists a, (m w).2 = inr a.
Proof.
  unfold bind. destruct (m w) as [w' [e|a]]; cbn [snd].
  - split; [done|by intros [? ?]].
  - split; [by eexists|done].
Qed.

Lemma bind_print_last {A} (m : M A) (msg : printed) w a :
  (m w).2 = inr a -> last (events ((m >> print msg) w).1) = Some (Print msg).
Proof.
  unfold bind. destruct (m w) as [w' [e|a']]; cbn [snd]; [done|]. intros _.
  unfold print, emit. cbn [fst events]. apply last_snoc.
Qed.

(** X16. A run that has found its participants returns (rather than
    raises) exactly when every turn of the loop runs to its end and the
    message-flow stage does: every call of the model is answered, and every
    table that parses to records can be written and has no column outside
    the headers of its file.  A run that returns has printed its closing
    message last and has prompted the model for every participant. *)
Theorem main_returns (pdf_path output_dir : str) (fs : gmap str csv_file)
    (pages : list (option str)) (resp p : str) (ps : list str) :
  pdf_pages E pdf_path = inr pages ->
  strip (full_text pages) <> [] ->
  gpt E 0 (get_participants_prompt (full_text pages)) = inr resp ->
  parse_numbered_list (strip resp) = p :: ps ->
  let replies := answers E (full_text pages) 1 (p :: ps) in
  ((main E pdf_path output_dir (start fs)).2 = inr tt
   <-> Forall (turn_ok E output_dir) replies /\
       flows_ok E output_dir (S (length (p :: ps))) (dict_of (successes replies)))
  /\ ((main E pdf_path output_dir (start fs)).2 = inr tt ->
      last (events (main E pdf_path output_dir (start fs)).1)
        = Some (Print MsgAllDone)
      /\ exists rest,
           model_calls (main E pdf_path output_dir (start fs)).1
             = get_participants_prompt (full_text pages)
               :: ((fun q => get_bpmn_prompt q (full_text pages)) <$> (p :: ps))
               ++ rest).
Proof.
  intros Hpages Htext Hresp Hps replies.
  rewrite (main_stage2 E _ _ _ _ _ _ _ Hpages Htext Hresp Hps).
  set (w1 := after_stage1 pdf_path (full_text pages) (p :: ps) fs).
  set (loop := for_participants E (full_text pages) output_dir (p :: ps) []).
  assert (Hnormal : Forall (turn_ok E output_dir) replies ->
            exists w2, loop w1 = (w2, inr (dict_of (successes replies))) /\
                       model_calls w2
                         = get_participants_prompt (full_text pages)
                           :: ((fun q => get_bpmn_prompt q (full_text pages))
                                 <$> (p :: ps))).
  { intros Hok.
    destruct (for_participants_normal E (full_text pages) output_dir (p :: ps) []
                w1 Hok) as (w2 & Hrun & Hcalls & _).
    by exists w2. }
  split.
  - split.
    + intros Hret. unfold bind at 1 in Hret.
      destruct (loop w1) as [w2 [e|t]] eqn:Hloop; [done|].
      pose proof (for_participants_inr E _ _ _ _ _ _ _ Hloop) as Hok.
      split; [exact Hok|].
      destruct (Hnormal Hok) as (w3 & Hrun & Hcalls).
      assert (Hw : w3 = w2) by congruence.
      assert (Ht : t = dict_of (successes replies)) by congruence.
      subst w3 t. clear Hrun.
      apply bind_print_returns in Hret as [[] Hret].
      apply message_flows_returns in Hret.
      rewrite Hcalls in Hret. cbn [length] in Hret.
      rewrite length_fmap in Hret. exact Hret.
    + intros [Hok Hflows]. destruct (Hnormal Hok) as (w2 & Hrun & Hcalls).
      unfold bind at 1. rewrite Hrun.
      apply bind_print_returns. exists tt. apply message_flows_returns.
      rewrite Hcalls. cbn [length]. by rewrite length_fmap.
  - intros Hret.
    destruct (loop w1) as [w2 [e|t]] eqn:Hloop;
      [by rewrite (bind_inl _ _ _ _ _ Hloop) in Hret|].
    rewrite !(bind_inr _ _ _ _ _ Hloop) in *.
    pose proof (for_participants_inr E _ _ _ _ _ _ _ Hloop) as Hok.
    destruct (Hnormal Hok) as (w3 & Hrun & Hcalls).
    assert (Hw : w3 = w2) by congruence.
    assert (Ht : t = dict_of (successes replies)) by congruence.
    subst w3 t. clear Hrun.
    pose proof Hret as Hret'.
    apply bind_print_returns in Hret' as [[] Hflows].
    split; [by eapply bind_print_last|].
    destruct (confined_bind (artifact_path output_dir)
                (message_flows E output_dir (dict_of (successes replies)))
                (fun _ => print MsgAllDone)
                (confined_message_flows E output_dir _)
                (fun _ => confined_print _ _) w2) as [[es Hes] _].
    unfold model_calls at 1. rewrite Hes, omap_app. fold (model_calls w2).
    rewrite Hcalls. by eexists.
Qed.

(** X17. The loop never asks twice: whatever happens, the calls it adds are
    the prompts of the first participants of the list, one each, in
    order. *)
Theorem for_participants_no_retry (sop_text output_dir : str)
    (participants : list str) (bpmn_tables : dict str) (w : world) :
  exists k,
    model_calls (for_participants E sop_text output_dir participants bpmn_tables w).1
      = model_calls w
        ++ ((fun p => get_bpmn_prompt p sop_text) <$> take k participants).
Proof.
  revert bpmn_tables w.
  induction participants as [|p ps IH]; intros t w.
  - exists 0%nat. simpl. by rewrite app_nil_r.
  - rewrite for_participants_cons. cbn zeta.
    assert (Hone : forall es fs,
              omap (fun e => match e with ModelCall c => Some c | _ => None end) es
                = [get_bpmn_prompt p sop_text] ->
              model_calls (World (events w ++ es) fs)
                = model_calls w ++ [get_bpmn_prompt p sop_text]).
    { intros es fs Hes. unfold model_calls. cbn [events]. by rewrite omap_app, Hes. }
    assert (Hstep : forall t' w',
              model_calls w' = model_calls w ++ [get_bpmn_prompt p sop_text] ->
              exists k,
                model_calls (for_participants E sop_text output_dir ps t' w').1
                  = model_calls w
                    ++ ((fun p => get_bpmn_prompt p sop_text) <$> take k (p :: ps))).
    { intros t' w' Hw'. destruct (IH t' w') as [k Hk]. exists (S k).
      rewrite Hk, Hw'. cbn [take fmap list_fmap]. by rewrite <- app_assoc. }
    destruct (gpt E _ _) as [e|reply]; [exists 1%nat; by apply Hone|].
    destruct (parse_markdown_table (strip reply)) as [|r rows];
      [by apply Hstep, Hone|].
    destruct (os_ok E _); [|exists 1%nat; by apply Hone].
    destruct (writerows _ _ _) as [f [e|]];
      [exists 1%nat; by apply Hone|by apply Hstep, Hone].
Qed.

End Returns.

Section NoTable.
Context `{UnicodeData} (E : env).

(** X18. When the model answers every participant and no reply parses to a
    record, the run returns without the message-flow stage: the model was
    called for the participants list and once per participant and no more,
    nothing was stored, and the files are as they were. *)
Theorem main_no_table (pdf_path output_dir : str) (fs : gmap str csv_file)
    (pages : list (option str)) (resp p : str) (ps : list str) :
  pdf_pages E pdf_path = inr pages ->
  strip (full_text pages) <> [] ->
  gpt E 0 (get_participants_prompt (full_text pages)) = inr resp ->
  parse_numbered_list (strip resp) = p :: ps ->
  Forall (fun pr => exists reply,
            pr.2 = inr reply /\ parse_markdown_table (strip reply) = [])
         (answers E (full_text pages) 1 (p :: ps)) ->
  (main E pdf_path output_dir (start fs)).2 = inr tt
  /\ model_calls (main E pdf_path output_dir (start fs)).1
     = get_participants_prompt (full_text pages)
       :: ((fun q => get_bpmn_prompt q (full_text pages)) <$> (p :: ps))
  /\ stores (main E pdf_path output_dir (start fs)).1 = []
  /\ files (main E pdf_path output_dir (start fs)).1 = fs
  /\ last (events (main E pdf_path output_dir (start fs)).1)
     = Some (Print MsgAllDone).
Proof.
  intros Hpages Htext Hresp Hps Hnone.
  rewrite (main_stage2 E _ _ _ _ _ _ _ Hpages Htext Hresp Hps).
  set (w1 := after_stage1 pdf_path (full_text pages) (p :: ps) fs).
  assert (Hok : Forall (turn_ok E output_dir)
                  (answers E (full_text pages) (length (model_calls w1)) (p :: ps))).
  { eapply Forall_impl; [exact Hnone|]. intros [q r] (reply & Hr & Hparse).
    unfold turn_ok. cbn [snd] in *. rewrite Hr. by left. }
  assert (Hwon : successes (answers E (full_text pages) (length (model_calls w1))
                              (p :: ps)) = []).
  { change (length (model_calls w1)) with 1%nat.
    induction Hnone as [|[q r] rest (reply & Hr & Hparse) _ IH]; [done|].
    unfold successes. cbn [omap list_omap fst snd] in *.
    rewrite Hr, Hparse. exact IH. }
  destruct (for_participants_normal E (full_text pages) output_dir (p :: ps) []
              w1 Hok) as (w2 & Hrun & Hcalls & Hstores & Hfiles).
  rewrite Hwon in Hrun, Hstores, Hfiles. cbn [fold_left fmap list_fmap] in *.
  rewrite (bind_inr _ _ _ _ _ Hrun). unfold message_flows, bind, ret, print, emit.
  cbn [fst snd events files].
  split; [done|]. unfold model_calls at 1, stores at 1. cbn [events].
  rewrite !omap_app. cbn [omap list_omap]. rewrite !app_nil_r.
  fold (model_calls w2). fold (stores w2).
  split; [exact Hcalls|]. split; [by rewrite Hstores, app_nil_r|].
  split; [exact Hfiles|apply last_snoc].
Qed.

End NoTable.

Lemma main_no_table_witness :
  (@main ascii_only
     (sample_env [inr three_names; inr (u "no"); inr (u "none"); inr (u "|x|")])
     (u "sop.pdf") (u "out") (start ∅)).2 = inr tt
  /\ length (model_calls
       (@main ascii_only
          (sample_env [inr three_names; inr (u "no"); inr (u "none"); inr (u "|x|")])
          (u "sop.pdf") (u "out") (start ∅)).1) = 4%nat.
Proof.
  destruct (@main_no_table ascii_only
              (sample_env [inr three_names; inr (u "no"); inr (u "none"); inr (u "|x|")])
              (u "sop.pdf") (u "out") ∅ sample_pages three_names
              (u "Alice") [u "Bob"; u "Carol"])
    as (Hret & Hcalls & _).
  - reflexivity.
  - vm_compute. congruence.
  - reflexivity.
  - vm_compute. reflexivity.
  - apply Forall_cons; split; [by eexists|].
    apply Forall_cons; split; [by eexists|].
    apply Forall_cons; split; [by eexists|by apply Forall_nil].
  - split; [exact Hret|]. by rewrite Hcalls.
Defined.

Lemma main_extraction_error_witness :
  @main ascii_only unreadable_env (u "sop.pdf") (u "out") (start ∅)
    = (World [Print (MsgReading (u "sop.pdf"))] ∅, inl ExtractionError).
Proof.
  exact (@main_extraction_error ascii_only unreadable_env (u "sop.pdf") (u "out")
           ∅ ExtractionError eq_refl).
Defined.

Lemma main_stage1_ends_witness :
  @main ascii_only (sample_env [inr (u "There are no participants.")])
    (u "sop.pdf") (u "out") (start ∅)
  = (World [ Print (MsgReading (u "sop.pdf")); Print MsgIdentifying;
             ModelCall (get_participants_prompt (full_text sample_pages));
             Print MsgNoParticipants;
             Print (MsgRawResponse (u "There are no participants.")) ] ∅,
     inr tt).
Proof.
  destruct (@main_stage1_ends ascii_only
              (sample_env [inr (u "There are no participants.")])
              (u "sop.pdf") (u "out") ∅ sample_pages eq_refl)
    as (_ & _ & Hnone).
  - vm_compute. congruence.
  - apply (Hnone (u "There are no participants.")).
    + reflexivity.
    + vm_compute. reflexivity.
Defined.

Lemma main_returns_witness :
  last (events (@main ascii_only (stage2_env (inr (u "I have no table for Bob.")))
                  (u "sop.pdf") (u "out") (start ∅)).1)
  = Some (Print MsgAllDone).
Proof.
  destruct (@main_returns ascii_only (stage2_env (inr (u "I have no table for Bob.")))
              (u "sop.pdf") (u "out") ∅ sample_pages three_names
              (u "Alice") [u "Bob"; u "Carol"])
    as [_ Hlast].
  - reflexivity.
  - vm_compute. congruence.
  - reflexivity.
  - vm_compute. reflexivity.
  - apply Hlast. vm_compute. reflexivity.
Defined.

(** ** The prompts of the first two stages *)

Lemma user_content_inj (s1 x1 u1 y1 s2 x2 u2 y2 : str) :
  [Message s1 x1; Message u1 y1] = [Message s2 x2; Message u2 y2] -> y1 = y2.
Proof. congruence. Qed.

(** X19. Both prompts are a system message followed by a user message that
    holds its inputs as they are: two documents that give the same
    participants prompt are the same text, and for one document two labels
    that give the same process-table prompt are the same label (and for one
    label, two documents that give the same prompt are the same text). *)
Theorem prompts_determine_inputs :
  (forall sop sop',
     get_participants_prompt sop = get_participants_prompt sop' -> sop = sop')
  /\ (forall p p' sop, get_bpmn_prompt p sop = get_bpmn_prompt p' sop -> p = p')
  /\ (forall p sop sop',
        get_bpmn_prompt p sop = get_bpmn_prompt p sop' -> sop = sop')
  /\ (forall p sop,
        role <$> get_participants_prompt sop = [u "system"; u "user"] /\
        role <$> get_bpmn_prompt p sop = [u "system"; u "user"]).
Proof.
  split; [|split; [|split]].
  - intros sop sop'. unfold get_participants_prompt. cbn zeta.
    intros Heq%user_content_inj. repeat (apply app_inv_head in Heq).
    by apply app_inv_tail in Heq.
  - intros p p' sop. unfold get_bpmn_prompt. intros Heq%user_content_inj.
    apply app_inv_head in Heq. by apply app_inv_tail in Heq.
  - intros p sop sop'. unfold get_bpmn_prompt. intros Heq%user_content_inj.
    repeat (apply app_inv_head in Heq). by apply app_inv_tail in Heq.
  - done.
Qed.

(** X20. The second qualifying line is taken for the separator and dropped
    whatever it holds: two texts that differ only in that line parse to the
    same records. *)
Theorem parse_markdown_table_drops_second_line (h x y : str) (body : list str) :
  Forall no_linebreak (h :: x :: y :: body) ->
  startswith_pipe (strip h) = true ->
  startswith_pipe (strip x) = true ->
  startswith_pipe (strip y) = true ->
  parse_markdown_table (join nl (h :: x :: body))
    = parse_markdown_table (join nl (h :: y :: body)).
Proof.
  intros Hall Hqh Hqx Hqy.
  assert (Forall no_linebreak (h :: x :: body) /\
          Forall no_linebreak (h :: y :: body)) as [H1 H2].
  { inversion Hall as [|? ? Hh Hr]; subst.
    inversion Hr as [|? ? Hx Hr']; subst.
    inversion Hr' as [|? ? Hy Hbody]; subst.
    split; repeat (constructor; [assumption|]); assumption. }
  unfold parse_markdown_table.
  rewrite (table_lines_join _ H1), (table_lines_join _ H2).
  rewrite !filter_cons, !decide_True by done. done.
Qed.

Lemma parse_markdown_table_drops_second_line_witness :
  parse_markdown_table (join nl [u "| a |"; u "| 1 |"; u "| 2 |"])
    = parse_markdown_table (join nl [u "| a |"; u "|---|"; u "| 2 |"])
  /\ parse_markdown_table (join nl [u "| a |"; u "| 1 |"; u "| 2 |"])
     = [[(u "a", u "2")]].
Proof.
  split; [|vm_compute; reflexivity].
  apply (parse_markdown_table_drops_second_line (u "| a |") (u "| 1 |")
           (u "|---|") [u "| 2 |"]); try reflexivity.
  apply (bool_decide_unpack
           (Forall (Forall (fun c => islinebreak c = false)) _)).
  vm_compute. exact I.
Defined.
